(** * Predictor constraints in optimization models

    The repository translates trained predictors into the rows of an
    optimization model.  Its documentation ships a written model,
    [Avocado_Price_Allocation] (LP format), and the notebooks that build
    the models.  This development embeds the written model and the
    notebook models as data, gives them the usual semantics of a linear
    program over the rationals, and proves the properties stated for them.

    Numbers are the decimal literals of the sources, read as exact
    rationals; solver tolerances and floating point are not modelled. *)

From Stdlib Require Import QArith Qabs Qminmax Lqa List Bool Arith Lia.
From Stdlib Require Import Permutation.
From Stdlib Require String.
Import ListNotations.
Open Scope Q_scope.

(** ** Models in LP format *)

Inductive Sense := LESS_EQUAL | GREATER_EQUAL | EQUAL.

Inductive ObjSense := MAXIMIZE | MINIMIZE.

(** Row names: [R k] is the default name [Rk] of the k-th row added by
    the user, [linreg i j] is [LinearRegressionConstr1.linreg[i,j]], and
    [scaler_s i j] is the row [s[i,j]] of a translated standard scaler. *)
Inductive RowName :=
| R (k : nat)
| linreg (i j : nat)
| scaler_s (i j : nat).

Definition RowName_eqb (n1 n2 : RowName) : bool :=
  match n1, n2 with
  | R k1, R k2 => Nat.eqb k1 k2
  | linreg i1 j1, linreg i2 j2 => Nat.eqb i1 i2 && Nat.eqb j1 j2
  | scaler_s i1 j1, scaler_s i2 j2 => Nat.eqb i1 i2 && Nat.eqb j1 j2
  | _, _ => false
  end.

Definition is_linreg (n : RowName) : bool :=
  match n with linreg _ _ => true | _ => false end.

Definition Interval := (option Q * option Q)%type.

Definition default_bounds : Interval := (Some 0, None).

Definition within (b : Interval) (q : Q) : Prop :=
  match fst b with Some lo => lo <= q | None => True end /\
  match snd b with Some hi => q <= hi | None => True end.

Definition withinb (b : Interval) (q : Q) : bool :=
  match fst b with Some lo => Qle_bool lo q | None => true end &&
  match snd b with Some hi => Qle_bool q hi | None => true end.

Section LP.

Variable V : Type.
Variable V_eqb : V -> V -> bool.

Definition LinExpr := list (Q * V).
Definition QuadExpr := list (Q * V * V).

(** The objective [linear + [ quadratic ] / 2] of the LP format. *)
Record Objective := {
  sense : ObjSense;
  linear : LinExpr;
  quadratic : QuadExpr
}.

Record Constr := Row {
  name : RowName;
  lhs : LinExpr;
  rel : Sense;
  rhs : Q
}.

(** The entries of a Bounds section.  A variable without an entry has
    the default bounds [0 <= v]; [Upper] keeps the default lower bound. *)
Inductive BoundDecl :=
| Range (lo : Q) (v : V) (hi : Q)
| Upper (v : V) (hi : Q)
| Fixed (v : V) (c : Q)
| Free (v : V).

Definition bound_var (d : BoundDecl) : V :=
  match d with
  | Range _ v _ | Upper v _ | Fixed v _ | Free v => v
  end.

Definition bound_interval (d : BoundDecl) : Interval :=
  match d with
  | Range lo _ hi => (Some lo, Some hi)
  | Upper _ hi => (Some 0, Some hi)
  | Fixed _ c => (Some c, Some c)
  | Free _ => (None, None)
  end.

Definition bounds_of (ds : list BoundDecl) (v : V) : Interval :=
  match find (fun d => V_eqb (bound_var d) v) ds with
  | Some d => bound_interval d
  | None => default_bounds
  end.

(** A model: columns, objective, rows, bounds, and the solution the
    solver left in it (the [X] attribute of its variables), if any. *)
Record Model := {
  vars : list V;
  objective : Objective;
  constrs : list Constr;
  bounds : list BoundDecl;
  X : option (V -> Q)
}.

(** *** Semantics *)

Definition eval (a : V -> Q) (e : LinExpr) : Q :=
  fold_right (fun t acc => fst t * a (snd t) + acc) 0 e.

Definition eval_quad (a : V -> Q) (e : QuadExpr) : Q :=
  fold_right
    (fun t acc => fst (fst t) * a (snd (fst t)) * a (snd t) + acc) 0 e.

Definition obj_value (a : V -> Q) (o : Objective) : Q :=
  eval a (linear o) + eval_quad a (quadratic o) / 2.

Definition holds (a : V -> Q) (c : Constr) : Prop :=
  match rel c with
  | LESS_EQUAL => eval a (lhs c) <= rhs c
  | GREATER_EQUAL => rhs c <= eval a (lhs c)
  | EQUAL => eval a (lhs c) == rhs c
  end.

Definition holdsb (a : V -> Q) (c : Constr) : bool :=
  match rel c with
  | LESS_EQUAL => Qle_bool (eval a (lhs c)) (rhs c)
  | GREATER_EQUAL => Qle_bool (rhs c) (eval a (lhs c))
  | EQUAL => Qeq_bool (eval a (lhs c)) (rhs c)
  end.

Definition feasible (m : Model) (a : V -> Q) : Prop :=
  Forall (holds a) (constrs m) /\
  Forall (fun v => within (bounds_of (bounds m) v) (a v)) (vars m).

Definition feasibleb (m : Model) (a : V -> Q) : bool :=
  forallb (holdsb a) (constrs m) &&
  forallb (fun v => withinb (bounds_of (bounds m) v) (a v)) (vars m).

Definition find_row (n : RowName) (cs : list Constr) : option Constr :=
  find (fun c => RowName_eqb (name c) n) cs.

(** What a row says, apart from its name. *)
Definition body (c : Constr) : LinExpr * Sense * Q :=
  (lhs c, rel c, rhs c).

(** ** Predictors and their translation *)

(** A trained linear regression, as scikit-learn stores it. *)
Record LinearRegression := {
  coef_ : list Q;
  intercept_ : Q
}.

Fixpoint dot (c r : list Q) : Q :=
  match c, r with
  | ci :: c', ri :: r' => ci * ri + dot c' r'
  | _, _ => 0
  end.

(** [predict]: the regression's prediction on one input row. *)
Definition predict (p : LinearRegression) (row : list Q) : Q :=
  dot (coef_ p) row + intercept_ p.

(** The left-hand side [- coef . row] of a translated row. *)
Fixpoint neg_terms (c : list Q) (row : list V) : LinExpr :=
  match c, row with
  | ci :: c', v :: row' => (- ci, v) :: neg_terms c' row'
  | _, _ => []
  end.

(** Modelled from the spec: the library's linear-regression adapter is not
    among the sources.  It translates the prediction on one input row into
    an algebraic constraint; the written model shows its shape: the row
    [linreg[i,0]: - coef . row + out = intercept]. *)
Definition linreg_row (p : LinearRegression) (i : nat)
    (row : list V) (out : V) : Constr :=
  Row (linreg i 0) (neg_terms (coef_ p) row ++ [(1, out)]) EQUAL
      (intercept_ p).

(** The adapter over a matrix: input row [i] with output [i], numbered
    from [i] on. *)
Fixpoint linreg_rows (p : LinearRegression) (i : nat)
    (input : list (list V)) (output : list V) : list Constr :=
  match input, output with
  | row :: input', out :: output' =>
      linreg_row p i row out :: linreg_rows p (S i) input' output'
  | _, _ => []
  end.

(** The object a translation returns: the predictor, the variables it
    links, and what it added to the model. *)
Record PredConstr := {
  predictor : LinearRegression;
  input : list (list V);
  output : list V;
  added_vars : list V;
  added_constrs : list Constr
}.

(** What [print_stats] reports. *)
Record Stats := {
  n_vars : nat;
  n_constrs : nat
}.

(** The state a notebook runs in: the model [m] and what was printed. *)
Record World := {
  m : Model;
  stdout : list Stats
}.

(** Notebook statements: they thread the world and may raise. *)
Definition Script (A : Type) := World -> option (A * World).

Definition ret {A} (v : A) : Script A := fun st => Some (v, st).

Definition bind {A B} (c : Script A) (k : A -> Script B) : Script B :=
  fun st =>
    match c st with
    | Some (v, st') => k v st'
    | None => None
    end.

Definition shapes_agree (p : LinearRegression)
    (input : list (list V)) (output : list V) : bool :=
  Nat.eqb (length input) (length output) &&
  forallb (fun row => Nat.eqb (length row) (length (coef_ p))) input.

(** Modelled from the spec: the library's [add_predictor_constr] is not
    among the sources.  This is the one call the written model shows: a
    linear regression alone, over a matrix of variables, with the outputs
    supplied.  The shapes are checked (one output per input row, each row
    carrying the regression's features), one row is added per input row
    and no variable is created.  Pipelines, data among the input and the
    creation of matrix variables are in [gurobi_ml.add_predictor_constr]
    below, which agrees with this function on the calls of this kind. *)
Definition add_predictor_constr (p : LinearRegression)
    (input_vars : list (list V)) (output_vars : list V)
    : Script PredConstr :=
  fun st =>
    if shapes_agree p input_vars output_vars then
      let rows := linreg_rows p 0 input_vars output_vars in
      Some ({| predictor := p;
               input := input_vars;
               output := output_vars;
               added_vars := [];
               added_constrs := rows |},
            {| m := {| vars := vars (m st);
                       objective := objective (m st);
                       constrs := constrs (m st) ++ rows;
                       bounds := bounds (m st);
                       X := X (m st) |};
               stdout := stdout st |})
    else None.

Definition stats (pc : PredConstr) : Stats :=
  {| n_vars := length (added_vars pc);
     n_constrs := length (added_constrs pc) |}.

(** Modelled from the spec: [print_stats] is not among the sources.  Per
    the spec it is bookkeeping, statistics printing; the notebooks use it
    to display what was added to the model. *)
Definition print_stats (pc : PredConstr) : Script unit :=
  fun st => Some (tt, {| m := m st; stdout := stdout st ++ [stats pc] |}).

(** [m.optimize()]: the external solver, taken as a function from the
    model to the solution it finds, if any. *)
Definition optimize (solver : Model -> option (V -> Q)) : Script unit :=
  fun st =>
    Some (tt, {| m := {| vars := vars (m st);
                         objective := objective (m st);
                         constrs := constrs (m st);
                         bounds := bounds (m st);
                         X := solver (m st) |};
                 stdout := stdout st |}).

(** The error of one row at a solution: how far the modeled output is
    from the prediction on the modeled inputs. *)
Definition row_error (p : LinearRegression) (a : V -> Q)
    (rv : list V * V) : Q :=
  Qabs (predict p (map a (fst rv)) - a (snd rv)).

(** Modelled from the spec: [get_error] is not among the sources.  Per the
    spec it measures the error between predicted and modeled outputs; it
    needs a solution and raises without one. *)
Definition get_error (pc : PredConstr) : Script (list Q) :=
  fun st =>
    match X (m st) with
    | Some a =>
        Some (map (row_error (predictor pc) a)
                  (combine (input pc) (output pc)), st)
    | None => None
    end.

(** [np.max] of a one-dimensional array; it raises on an empty one. *)
Definition np_max (l : list Q) : option Q :=
  match l with
  | [] => None
  | e :: l' => Some (fold_left Qmax l' e)
  end.

(** Rows picked by index, as [A[sel]] does on a matrix. *)
Definition select {A : Type} (sel : list nat) (l : list A) : list A :=
  flat_map (fun k => match nth_error l k with
                     | Some v => [v]
                     | None => []
                     end) sel.

End LP.

Arguments Row {V}.
Arguments name {V}.
Arguments lhs {V}.
Arguments rel {V}.
Arguments rhs {V}.
Arguments Range {V}.
Arguments Upper {V}.
Arguments Fixed {V}.
Arguments Free {V}.
Arguments sense {V}.
Arguments linear {V}.
Arguments quadratic {V}.
Arguments vars {V}.
Arguments objective {V}.
Arguments constrs {V}.
Arguments bounds {V}.
Arguments X {V}.
Arguments eval {V}.
Arguments eval_quad {V}.
Arguments obj_value {V}.
Arguments holds {V}.
Arguments holdsb {V}.
Arguments feasible {V}.
Arguments feasibleb {V}.
Arguments bounds_of {V}.
Arguments bound_var {V}.
Arguments bound_interval {V}.
Arguments find_row {V}.
Arguments body {V}.
Arguments neg_terms {V}.
Arguments linreg_row {V}.
Arguments linreg_rows {V}.
Arguments predictor {V}.
Arguments input {V}.
Arguments output {V}.
Arguments added_vars {V}.
Arguments added_constrs {V}.
Arguments m {V}.
Arguments stdout {V}.
Arguments ret {V A}.
Arguments bind {V A B}.
Arguments shapes_agree {V}.
Arguments add_predictor_constr {V}.
Arguments stats {V}.
Arguments print_stats {V}.
Arguments optimize {V}.
Arguments row_error {V}.
Arguments get_error {V}.

Declare Scope script_scope.
Delimit Scope script_scope with script.
Notation "v <- c ;; k" := (bind c (fun v => k))
  (at level 61, c at next level, right associativity) : script_scope.
Notation "c ;; k" := (bind c (fun _ => k))
  (at level 61, right associativity) : script_scope.

(** ** The written model [Avocado_Price_Allocation] *)

(** The model of the price optimization notebook as it was written to an LP
    file: its sections [Maximize], [Subject To] and [Bounds], entry by
    entry. *)
Module Avocado_Price_Allocation.

Inductive var :=
| x (i : nat)
| s (i : nat)
| w (i : nat)
| demand (i : nat)
| reg_features (i j : nat).

Definition var_eqb (u v : var) : bool :=
  match u, v with
  | x i, x j | s i, s j | w i, w j | demand i, demand j => Nat.eqb i j
  | reg_features i1 j1, reg_features i2 j2 => Nat.eqb i1 i2 && Nat.eqb j1 j2
  | _, _ => false
  end.

Definition Maximize : Objective var :=
  {| sense := MAXIMIZE;
     linear := [
       (-0.3, x 0); (-0.1, x 1); (-0.4, x 2); (-0.5, x 3); (-0.3, x 4);
       (-0.2, x 5); (-0.2, x 6); (-0.2, x 7); (-0.1, w 0); (-0.1, w 1);
       (-0.1, w 2); (-0.1, w 3); (-0.1, w 4); (-0.1, w 5); (-0.1, w 6);
       (-0.1, w 7)];
     quadratic := [
       (2, s 0, reg_features 0 8);
       (2, s 1, reg_features 1 8);
       (2, s 2, reg_features 2 8);
       (2, s 3, reg_features 3 8);
       (2, s 4, reg_features 4 8);
       (2, s 5, reg_features 5 8);
       (2, s 6, reg_features 6 8);
       (2, s 7, reg_features 7 8)] |}.

Definition Subject_To : list (Constr var) := [
  Row (R 0) [
      (1, x 0); (1, x 1); (1, x 2); (1, x 3); (1, x 4); (1, x 5); (1, x 6);
      (1, x 7)]
    EQUAL 30;
  Row (R 1) [(-1, x 0); (1, s 0)] LESS_EQUAL 0;
  Row (R 2) [(-1, x 1); (1, s 1)] LESS_EQUAL 0;
  Row (R 3) [(-1, x 2); (1, s 2)] LESS_EQUAL 0;
  Row (R 4) [(-1, x 3); (1, s 3)] LESS_EQUAL 0;
  Row (R 5) [(-1, x 4); (1, s 4)] LESS_EQUAL 0;
  Row (R 6) [(-1, x 5); (1, s 5)] LESS_EQUAL 0;
  Row (R 7) [(-1, x 6); (1, s 6)] LESS_EQUAL 0;
  Row (R 8) [(-1, x 7); (1, s 7)] LESS_EQUAL 0;
  Row (R 9) [(1, s 0); (-1, demand 0)] LESS_EQUAL 0;
  Row (R 10) [(1, s 1); (-1, demand 1)] LESS_EQUAL 0;
  Row (R 11) [(1, s 2); (-1, demand 2)] LESS_EQUAL 0;
  Row (R 12) [(1, s 3); (-1, demand 3)] LESS_EQUAL 0;
  Row (R 13) [(1, s 4); (-1, demand 4)] LESS_EQUAL 0;
  Row (R 14) [(1, s 5); (-1, demand 5)] LESS_EQUAL 0;
  Row (R 15) [(1, s 6); (-1, demand 6)] LESS_EQUAL 0;
  Row (R 16) [(1, s 7); (-1, demand 7)] LESS_EQUAL 0;
  Row (R 17) [(-1, x 0); (1, s 0); (1, w 0)] EQUAL 0;
  Row (R 18) [(-1, x 1); (1, s 1); (1, w 1)] EQUAL 0;
  Row (R 19) [(-1, x 2); (1, s 2); (1, w 2)] EQUAL 0;
  Row (R 20) [(-1, x 3); (1, s 3); (1, w 3)] EQUAL 0;
  Row (R 21) [(-1, x 4); (1, s 4); (1, w 4)] EQUAL 0;
  Row (R 22) [(-1, x 5); (1, s 5); (1, w 5)] EQUAL 0;
  Row (R 23) [(-1, x 6); (1, s 6); (1, w 6)] EQUAL 0;
  Row (R 24) [(-1, x 7); (1, s 7); (1, w 7)] EQUAL 0;
  Row (linreg 0 0) [
      (0.2426931536778747, reg_features 0 0);
      (-1.433019836643237, reg_features 0 1);
      (3.01924379063788, reg_features 0 2);
      (1.815032872390411, reg_features 0 3);
      (-1.713812073973461, reg_features 0 4);
      (-0.5839901666611677, reg_features 0 5);
      (-2.601799448641272, reg_features 0 6);
      (-0.1607693023184433, reg_features 0 7);
      (2.203770104890248, reg_features 0 8);
      (-0.5485105058308409, reg_features 0 9); (1, demand 0)]
    EQUAL 5.439310052165032;
  Row (linreg 1 0) [
      (0.2426931536778747, reg_features 1 0);
      (-1.433019836643237, reg_features 1 1);
      (3.01924379063788, reg_features 1 2);
      (1.815032872390411, reg_features 1 3);
      (-1.713812073973461, reg_features 1 4);
      (-0.5839901666611677, reg_features 1 5);
      (-2.601799448641272, reg_features 1 6);
      (-0.1607693023184433, reg_features 1 7);
      (2.203770104890248, reg_features 1 8);
      (-0.5485105058308409, reg_features 1 9); (1, demand 1)]
    EQUAL 5.439310052165032;
  Row (linreg 2 0) [
      (0.2426931536778747, reg_features 2 0);
      (-1.433019836643237, reg_features 2 1);
      (3.01924379063788, reg_features 2 2);
      (1.815032872390411, reg_features 2 3);
      (-1.713812073973461, reg_features 2 4);
      (-0.5839901666611677, reg_features 2 5);
      (-2.601799448641272, reg_features 2 6);
      (-0.1607693023184433, reg_features 2 7);
      (2.203770104890248, reg_features 2 8);
      (-0.5485105058308409, reg_features 2 9); (1, demand 2)]
    EQUAL 5.439310052165032;
  Row (linreg 3 0) [
      (0.2426931536778747, reg_features 3 0);
      (-1.433019836643237, reg_features 3 1);
      (3.01924379063788, reg_features 3 2);
      (1.815032872390411, reg_features 3 3);
      (-1.713812073973461, reg_features 3 4);
      (-0.5839901666611677, reg_features 3 5);
      (-2.601799448641272, reg_features 3 6);
      (-0.1607693023184433, reg_features 3 7);
      (2.203770104890248, reg_features 3 8);
      (-0.5485105058308409, reg_features 3 9); (1, demand 3)]
    EQUAL 5.439310052165032;
  Row (linreg 4 0) [
      (0.2426931536778747, reg_features 4 0);
      (-1.433019836643237, reg_features 4 1);
      (3.01924379063788, reg_features 4 2);
      (1.815032872390411, reg_features 4 3);
      (-1.713812073973461, reg_features 4 4);
      (-0.5839901666611677, reg_features 4 5);
      (-2.601799448641272, reg_features 4 6);
      (-0.1607693023184433, reg_features 4 7);
      (2.203770104890248, reg_features 4 8);
      (-0.5485105058308409, reg_features 4 9); (1, demand 4)]
    EQUAL 5.439310052165032;
  Row (linreg 5 0) [
      (0.2426931536778747, reg_features 5 0);
      (-1.433019836643237, reg_features 5 1);
      (3.01924379063788, reg_features 5 2);
      (1.815032872390411, reg_features 5 3);
      (-1.713812073973461, reg_features 5 4);
      (-0.5839901666611677, reg_features 5 5);
      (-2.601799448641272, reg_features 5 6);
      (-0.1607693023184433, reg_features 5 7);
      (2.203770104890248, reg_features 5 8);
      (-0.5485105058308409, reg_features 5 9); (1, demand 5)]
    EQUAL 5.439310052165032;
  Row (linreg 6 0) [
      (0.2426931536778747, reg_features 6 0);
      (-1.433019836643237, reg_features 6 1);
      (3.01924379063788, reg_features 6 2);
      (1.815032872390411, reg_features 6 3);
      (-1.713812073973461, reg_features 6 4);
      (-0.5839901666611677, reg_features 6 5);
      (-2.601799448641272, reg_features 6 6);
      (-0.1607693023184433, reg_features 6 7);
      (2.203770104890248, reg_features 6 8);
      (-0.5485105058308409, reg_features 6 9); (1, demand 6)]
    EQUAL 5.439310052165032;
  Row (linreg 7 0) [
      (0.2426931536778747, reg_features 7 0);
      (-1.433019836643237, reg_features 7 1);
      (3.01924379063788, reg_features 7 2);
      (1.815032872390411, reg_features 7 3);
      (-1.713812073973461, reg_features 7 4);
      (-0.5839901666611677, reg_features 7 5);
      (-2.601799448641272, reg_features 7 6);
      (-0.1607693023184433, reg_features 7 7);
      (2.203770104890248, reg_features 7 8);
      (-0.5485105058308409, reg_features 7 9); (1, demand 7)]
    EQUAL 5.439310052165032].

Definition Bounds : list (BoundDecl var) := [
  Range 2.06357351 (x 0) 7.094764730000001;
  Range 1.84544313 (x 1) 6.168571610000001;
  Range 2.36442449 (x 2) 8.836406220000001;
  Range 0.2196899 (x 3) 0.91798395;
  Range 3.68713018 (x 4) 10.32317459;
  Range 2.1977637 (x 5) 7.81047462;
  Range 3.26010217 (x 6) 11.27474911;
  Range 1.05893809 (x 7) 3.57549921;
  Fixed (reg_features 0 0) 0;
  Fixed (reg_features 0 1) 0;
  Fixed (reg_features 0 2) 0;
  Fixed (reg_features 0 3) 0;
  Fixed (reg_features 0 4) 0;
  Fixed (reg_features 0 5) 0;
  Fixed (reg_features 0 6) 0;
  Fixed (reg_features 0 7) 7;
  Upper (reg_features 0 8) 2;
  Fixed (reg_features 0 9) 1;
  Fixed (reg_features 1 0) 1;
  Fixed (reg_features 1 1) 0;
  Fixed (reg_features 1 2) 0;
  Fixed (reg_features 1 3) 0;
  Fixed (reg_features 1 4) 0;
  Fixed (reg_features 1 5) 0;
  Fixed (reg_features 1 6) 0;
  Fixed (reg_features 1 7) 7;
  Upper (reg_features 1 8) 2;
  Fixed (reg_features 1 9) 1;
  Fixed (reg_features 2 0) 0;
  Fixed (reg_features 2 1) 1;
  Fixed (reg_features 2 2) 0;
  Fixed (reg_features 2 3) 0;
  Fixed (reg_features 2 4) 0;
  Fixed (reg_features 2 5) 0;
  Fixed (reg_features 2 6) 0;
  Fixed (reg_features 2 7) 7;
  Upper (reg_features 2 8) 2;
  Fixed (reg_features 2 9) 1;
  Fixed (reg_features 3 0) 0;
  Fixed (reg_features 3 1) 0;
  Fixed (reg_features 3 2) 1;
  Fixed (reg_features 3 3) 0;
  Fixed (reg_features 3 4) 0;
  Fixed (reg_features 3 5) 0;
  Fixed (reg_features 3 6) 0;
  Fixed (reg_features 3 7) 7;
  Upper (reg_features 3 8) 2;
  Fixed (reg_features 3 9) 1;
  Fixed (reg_features 4 0) 0;
  Fixed (reg_features 4 1) 0;
  Fixed (reg_features 4 2) 0;
  Fixed (reg_features 4 3) 0;
  Fixed (reg_features 4 4) 1;
  Fixed (reg_features 4 5) 0;
  Fixed (reg_features 4 6) 0;
  Fixed (reg_features 4 7) 7;
  Upper (reg_features 4 8) 2;
  Fixed (reg_features 4 9) 1;
  Fixed (reg_features 5 0) 0;
  Fixed (reg_features 5 1) 0;
  Fixed (reg_features 5 2) 0;
  Fixed (reg_features 5 3) 0;
  Fixed (reg_features 5 4) 0;
  Fixed (reg_features 5 5) 1;
  Fixed (reg_features 5 6) 0;
  Fixed (reg_features 5 7) 7;
  Upper (reg_features 5 8) 2;
  Fixed (reg_features 5 9) 1;
  Fixed (reg_features 6 0) 0;
  Fixed (reg_features 6 1) 0;
  Fixed (reg_features 6 2) 0;
  Fixed (reg_features 6 3) 0;
  Fixed (reg_features 6 4) 0;
  Fixed (reg_features 6 5) 0;
  Fixed (reg_features 6 6) 1;
  Fixed (reg_features 6 7) 7;
  Upper (reg_features 6 8) 2;
  Fixed (reg_features 6 9) 1;
  Fixed (reg_features 7 0) 0;
  Fixed (reg_features 7 1) 0;
  Fixed (reg_features 7 2) 0;
  Fixed (reg_features 7 3) 1;
  Fixed (reg_features 7 4) 0;
  Fixed (reg_features 7 5) 0;
  Fixed (reg_features 7 6) 0;
  Fixed (reg_features 7 7) 7;
  Upper (reg_features 7 8) 2;
  Fixed (reg_features 7 9) 1;
  Free (demand 0);
  Free (demand 1);
  Free (demand 2);
  Free (demand 3);
  Free (demand 4);
  Free (demand 5);
  Free (demand 6);
  Free (demand 7)].

(** The columns of the model: every variable the file names. *)
Definition columns : list var :=
  map x (seq 0 8) ++ map w (seq 0 8) ++ map s (seq 0 8) ++
  flat_map (fun i => map (reg_features i) (seq 0 10)) (seq 0 8) ++
  map demand (seq 0 8).

Definition model : Model var :=
  {| vars := columns;
     objective := Maximize;
     constrs := Subject_To;
     bounds := Bounds;
     X := None |}.

(** *** The translation that gives the written model *)

(** The trained regression [lin_reg].  Training is left to scikit-learn and
    the fitted numbers are not stored in the repository; they are read off
    the rows [- coef . row + demand = intercept] of the written model. *)
Definition lin_reg : LinearRegression :=
  {| coef_ := [
       -0.2426931536778747; 1.433019836643237; -3.01924379063788;
       -1.815032872390411; 1.713812073973461; 0.5839901666611677;
       2.601799448641272; 0.1607693023184433; -2.203770104890248;
       0.5485105058308409];
     intercept_ := 5.439310052165032 |}.

(** [feats]: the regression's input, one row of ten features per region. *)
Definition feats_row (i : nat) : list var :=
  map (reg_features i) (seq 0 10).

Definition feats : list (list var) := map feats_row (seq 0 8).

(** [d]: the predicted demand of each region. *)
Definition d : list var := map demand (seq 0 8).

(** The written model without its regression rows: its columns (the
    input matrix [reg_features] among them), objective and bounds, and
    the rows [R0] to [R24].  The written model is the translation of this
    one.  The notebook in the repository builds another model before its
    call, [price_optimization_model.before], of 40 columns named by
    region. *)
Definition m0 : Model var :=
  {| vars := columns;
     objective := Maximize;
     constrs := filter (fun c => negb (is_linreg (name c))) Subject_To;
     bounds := Bounds;
     X := None |}.

Definition start : World var := {| m := m0; stdout := [] |}.

Local Open Scope script_scope.

(** The notebook's steps from the translation on, taken on the written
    model's inputs, a regression alone over the matrix [reg_features]:
    [pred_constr = add_predictor_constr(m, lin_reg, feats, d)],
    [pred_constr.print_stats()], [m.optimize()],
    [np.max(pred_constr.get_error())].  The notebook in the repository
    passes a pipeline and a data frame to the first step; that call is
    [price_optimization_model.lin_reg] on [price_optimization_model.feats],
    translated by [gurobi_ml.add_predictor_constr]. *)
Definition notebook (solver : Model var -> option (var -> Q))
    : Script var (option Q) :=
  pred_constr <- add_predictor_constr lin_reg feats d ;;
  print_stats pred_constr ;;
  optimize solver ;;
  e <- get_error pred_constr ;;
  ret (np_max e).

Local Close Scope script_scope.

(** The object the translation returns, and the world it leaves. *)
Definition pred_constr : PredConstr var :=
  {| predictor := lin_reg;
     input := feats;
     output := d;
     added_vars := [];
     added_constrs := linreg_rows lin_reg 0 feats d |}.

Definition translated : World var := {| m := model; stdout := [] |}.

(** The rows of the written model that the translation names after input
    row [i]. *)
Definition rows_of_input (i : nat) : list (Constr var) :=
  filter (fun c => match name c with
                   | linreg i' _ => Nat.eqb i' i
                   | _ => false
                   end) Subject_To.

(** *** A feasible point *)

(** Every price set to 1, the fixed features at their values. *)
Definition feature_value (i j : nat) : Q :=
  if Nat.eqb j 8 then 1
  else match fst (bounds_of var_eqb Bounds (reg_features i j)) with
       | Some c => c
       | None => 0
       end.

Definition point (v : var) : Q :=
  match v with
  | x i => nth i [4; 3; 5; 0.5; 6; 4; 6; 1.5] 0
  | s i => 0.2
  | w i => nth i [3.8; 2.8; 4.8; 0.3; 5.8; 3.8; 5.8; 1.3] 0
  | demand i => predict lin_reg (map (feature_value i) (seq 0 10))
  | reg_features i j => feature_value i j
  end.

(** A solver that only ever proposes [point]. *)
Definition point_solver (mdl : Model var) : option (var -> Q) :=
  if feasibleb var_eqb mdl point then Some point else None.

(** The world after the translation, the printing and a solve that
    returned [point]. *)
Definition solved : World var :=
  {| m := {| vars := columns;
             objective := Maximize;
             constrs := Subject_To;
             bounds := Bounds;
             X := Some point |};
     stdout := [stats pred_constr] |}.

End Avocado_Price_Allocation.

(** ** The model of the adversarial notebook *)

Module adversarial_mnist.

Inductive var :=
| x (i j : nat)
| y (i j : nat)
| abs_diff (i j : nat).

Definition var_eqb (u v : var) : bool :=
  match u, v with
  | x i1 j1, x i2 j2 | y i1 j1, y i2 j2 | abs_diff i1 j1, abs_diff i2 j2 =>
      Nat.eqb i1 i2 && Nat.eqb j1 j2
  | _, _ => false
  end.

Definition delta : Q := 5.

Section Model.

(** The chosen image, of shape (1, n), and the shape (1, n_labels) of the
    network's output with the two labels of the objective. *)
Variable example : list Q.
Variable n_labels : nat.
Variables wrong_label right_label : nat.

(** What [add_mlp_regressor_constr] adds to the model.  Neither that
    function nor the trained network is among the sources. *)
Variable nn_vars : list var.
Variable nn_bounds : list (BoundDecl var).
Variable nn_rows : list (Constr var).

Definition pixels : list nat := seq 0 (length example).

(** [m.addMVar(shape, lb, ub, name)] for a shape (1, n). *)
Definition addMVar (mk : nat -> nat -> var) (n : nat) : list var :=
  map (mk 0%nat) (seq 0 n).

(** [abs_diff >= x - example] *)
Definition above (k : nat) : Constr var :=
  Row (R k) [(1, abs_diff 0 k); (-1, x 0 k)] GREATER_EQUAL
      (- nth k example 0).

(** [abs_diff >= -x + example] *)
Definition below (k : nat) : Constr var :=
  Row (R (length example + k)) [(1, abs_diff 0 k); (1, x 0 k)] GREATER_EQUAL
      (nth k example 0).

(** [abs_diff.sum() <= delta] *)
Definition budget : Constr var :=
  Row (R (2 * length example)) (map (fun k => (1, abs_diff 0 k)) pixels)
      LESS_EQUAL delta.

Definition model : Model var :=
  {| vars := addMVar x (length example) ++ addMVar y n_labels ++
             addMVar abs_diff (length example) ++ nn_vars;
     objective :=
       {| sense := MAXIMIZE;
          linear := [(1, y 0 wrong_label); (-1, y 0 right_label)];
          quadratic := [] |};
     constrs := map above pixels ++ map below pixels ++ [budget] ++ nn_rows;
     bounds := map (fun k => Range 0 (x 0 k) 1) pixels ++
               map (fun k => Free (y 0 k)) (seq 0 n_labels) ++
               map (fun k => Range 0 (abs_diff 0 k) 1) pixels ++
               nn_bounds;
     X := None |}.

(** The distance [|| x - example ||_1] at an assignment. *)
Definition norm1 (a : var -> Q) : Q :=
  fold_right Qplus 0
    (map (fun k => Qabs (a (x 0 k) - nth k example 0)) pixels).

End Model.

(** *** A feasible point *)

(** A 28 by 28 image with every seventh pixel lit, and a copy of it with
    its first three pixels inverted. *)
Definition image : list Q :=
  map (fun k => if Nat.eqb (k mod 7) 0 then 1 else 0) (seq 0 784).

Definition nearby (v : var) : Q :=
  match v with
  | x _ k => if Nat.ltb k 3 then 1 - nth k image 0 else nth k image 0
  | y _ _ => 0
  | abs_diff _ k => if Nat.ltb k 3 then 1 else 0
  end.

End adversarial_mnist.

(** ** The price optimization notebook *)

(** The parameters and helper code of the notebook whose model was
    written to [Avocado_Price_Allocation]; the price of region [i] is the
    column [reg_features[i,8]] there. *)
Module price_optimization.

Import Avocado_Price_Allocation.
Import Stdlib.Strings.String.

(** [range(start, stop)] *)
Definition range (start stop : Z) : list Z :=
  map (fun k => (start + Z.of_nat k)%Z) (seq 0 (Z.to_nat (stop - start))).

Definition peak_months : list Z := range 2 8.

(** [peak_season(row)], on the month of the row:
    [1 if int(row["month"]) in peak_months else 0]. *)
Definition peak_season (month : Z) : Z :=
  if existsb (Z.eqb month) peak_months then 1%Z else 0%Z.

Definition regions : list String.string := [
  "Great_Lakes"; "Midsouth"; "Northeast"; "Northern_New_England";
  "SouthCentral"; "Southeast"; "West"; "Plains"]%string.

Definition B : Q := 30.

Definition c_waste : Q := 0.1.

Definition c_transport : list (String.string * Q) := [
  ("Great_Lakes", 0.3); ("Midsouth", 0.1); ("Northeast", 0.4);
  ("Northern_New_England", 0.5); ("SouthCentral", 0.3); ("Southeast", 0.2);
  ("West", 0.2); ("Plains", 0.2)]%string.

Definition a_min : Q := 0.

Definition a_max : Q := 2.

(** [series.loc[keys]]: the entries of the labels asked for, in that order;
    a label the series lacks raises. *)
Fixpoint loc (series : list (String.string * Q)) (keys : list String.string)
    : option (list (String.string * Q)) :=
  match keys with
  | [] => Some []
  | k :: keys' =>
      match find (fun e => String.eqb (fst e) k) series, loc series keys' with
      | Some e, Some r => Some (e :: r)
      | _, _ => None
      end
  end.

Definition total (l : list Q) : Q := fold_right Qplus 0 l.

(** The objective handed to [m.setObjective]:
    [(p * s).sum() - c_waste * w.sum() - (c_transport * x).sum()]. *)
Definition net_revenue (transport : list Q) (a : var -> Q) : Q :=
  total (map (fun i => a (reg_features i 8) * a (s i)) (seq 0 8))
  - c_waste * total (map (fun i => a (w i)) (seq 0 8))
  - total (map (fun ci => fst ci * a (x (snd ci)))
               (combine transport (seq 0 8))).

(** The demand [d(p, r)] the regression predicts for region [i] at price
    [p], the other features being fixed as in the written model. *)
Definition predicted_demand (i : nat) (p : Q) : Q :=
  predict lin_reg
    (map (fun j => if Nat.eqb j 8 then p else feature_value i j) (seq 0 10)).

(** A solution changed in region [i] only: everything the region can sell
    is sold and the rest of its allocation is waste. *)
Definition sell_more (i : nat) (a : var -> Q) : var -> Q :=
  fun v =>
    match v with
    | s k => if Nat.eqb k i then Qmin (a (x i)) (a (demand i)) else a v
    | w k => if Nat.eqb k i then a (x i) - Qmin (a (x i)) (a (demand i))
             else a v
    | _ => a v
    end.

(** Whether a row names the sold or the wasted quantity of region [i]. *)
Definition touches (i : nat) (c : Constr var) : bool :=
  existsb (fun t => var_eqb (snd t) (s i) || var_eqb (snd t) (w i)) (lhs c).

End price_optimization.

(** ** Choosing the labels of the adversarial objective *)

Module adversarial_mnist_labels.

Import adversarial_mnist.

(** [l[-k]] for [k >= 1]: the k-th element from the end, an IndexError
    when the list is shorter. *)
Definition from_end {A : Type} (l : list A) (k : nat) : option A :=
  if (k <=? length l)%nat then nth_error l (length l - k) else None.

(** [right_label = sorted_labels[-1]], [wrong_label = sorted_labels[-2]] *)
Definition right_label (sorted_labels : list nat) : option nat :=
  from_end sorted_labels 1.

Definition wrong_label (sorted_labels : list nat) : option nat :=
  from_end sorted_labels 2.

(** What [np.argsort] promises of its result on the row [prob]: the
    indices of the row, ordered by increasing value. *)
Definition is_argsort (prob : list Q) (sorted_labels : list nat) : Prop :=
  Permutation sorted_labels (seq 0 (length prob)) /\
  forall i j, (i < j < length sorted_labels)%nat ->
    nth (nth i sorted_labels 0%nat) prob 0
    <= nth (nth j sorted_labels 0%nat) prob 0.

(** An assignment given by an image [xv] and outputs [yv], with
    [abs_diff] set to the distance of each pixel from the example. *)
Definition ball_point (example : list Q) (xv yv : nat -> Q) : var -> Q :=
  fun v =>
    match v with
    | x _ k => xv k
    | y _ k => yv k
    | abs_diff _ k => Qabs (xv k - nth k example 0)
    end.

(** *** A row of three probabilities and its argsort *)

Definition three_probs : list Q := [0.1; 0.7; 0.2].

Definition three_sorted : list nat := [0; 2; 1]%nat.

(** *** An image near [image] *)

(** [image] with its first three pixels inverted. *)
Definition shifted (k : nat) : Q :=
  if Nat.ltb k 3 then 1 - nth k image 0 else nth k image 0.

End adversarial_mnist_labels.

(** ** The model of the student enrollment notebook *)

Module student_enrollment.

Inductive var :=
| enroll_probability (i : nat)
| merit (i : nat).

Definition var_eqb (u v : var) : bool :=
  match u, v with
  | enroll_probability i, enroll_probability j | merit i, merit j =>
      Nat.eqb i j
  | _, _ => false
  end.

Section Model.

(** The number of admitted students; they are numbered by their position
    in [studentsdata]. *)
Variable nstudents : nat.

(** What [add_predictor_constr] adds for the logistic regression.  Neither
    that function nor the fitted pipeline is among the sources. *)
Variable pred_vars : list var.
Variable pred_bounds : list (BoundDecl var).
Variable pred_rows : list (Constr var).

Definition students : list nat := seq 0 nstudents.

(** [0.2 * nstudents] *)
Definition budget : Q := 0.2 * inject_Z (Z.of_nat nstudents).

(** [y = gppd.add_vars(m, studentsdata, name='enroll_probability')],
    [studentsdata.gppd.add_vars(m, lb=0.0, ub=2.5, name='merit')],
    [m.setObjective(y.sum(), gp.GRB.MAXIMIZE)],
    [m.addConstr(x.sum() <= 0.2 * nstudents)]. *)
Definition model : Model var :=
  {| vars := map enroll_probability students ++ map merit students ++
             pred_vars;
     objective :=
       {| sense := MAXIMIZE;
          linear := map (fun i => (1, enroll_probability i)) students;
          quadratic := [] |};
     constrs :=
       [Row (R 0) (map (fun i => (1, merit i)) students) LESS_EQUAL budget]
       ++ pred_rows;
     bounds := map (fun i => Range 0.0 (merit i) 2.5) students ++ pred_bounds;
     X := None |}.

(** The students who are offered the largest scholarship. *)
Definition full_scholarships (a : var -> Q) : list nat :=
  filter (fun i => Qle_bool 2.5 (a (merit i))) students.

End Model.

(** *** A feasible point *)

(** The first twenty students get 2.5 each, the others nothing. *)
Definition twenty (v : var) : Q :=
  match v with
  | enroll_probability _ => 0
  | merit i => if Nat.ltb i 20 then 2.5 else 0
  end.

End student_enrollment.

(** ** The translation in general *)

(** Modelled from the spec: the library's translation of a trained
    predictor is not among the sources.  Per the spec it is a purely
    structural translation into algebraic constraints inside the model,
    with shape inference and matrix-variable creation, through thin
    per-model-family adapters.  It is modelled for the families whose
    translation is linear: a linear regression, alone or at the end of a
    pipeline whose first step is a column transformer (one-hot encoder,
    standard scaler, passthrough), as the price optimization notebook
    builds it.  Piecewise-linear approximations (logistic regression),
    trees and neural networks are not modelled. *)
Module gurobi_ml.

(** The parts of a translation that create a matrix variable. *)
Inductive Part :=
| scaler_input
| scaler_output
| regression_input
| regression_output.

Definition Part_eqb (p1 p2 : Part) : bool :=
  match p1, p2 with
  | scaler_input, scaler_input | scaler_output, scaler_output
  | regression_input, regression_input
  | regression_output, regression_output => true
  | _, _ => false
  end.

(** The steps a fitted column transformer applies, each with the fitted
    attributes it uses: the categories of each encoded column (the encoder
    drops the first), the mean and scale of each scaled column. *)
Inductive Transformer :=
| OneHotEncoder (categories_ : list (list String.string))
| StandardScaler (mean_ scale_ : list Q)
| passthrough.

(** [transformers_]: each step with the positions of its columns; the
    other columns are dropped. *)
Definition ColumnTransformer := list (Transformer * list nat).

Inductive Predictor :=
| Regression (p : LinearRegression)
| Pipeline (ct : ColumnTransformer) (p : LinearRegression).

(** The regression a predictor ends in. *)
Definition final_estimator (p : Predictor) : LinearRegression :=
  match p with
  | Regression r | Pipeline _ r => r
  end.

Section Translation.

Variable V : Type.
Variable V_eqb : V -> V -> bool.

(** The name of entry [i, j] of the matrix variable a part creates.  Names
    identify columns here, so a translation whose names are taken is
    refused; a second translation into the same model needs other names. *)
Variable mvar : Part -> nat -> nat -> V.

(** An entry of the input: a label or a number of the data, or a variable
    of the model. *)
Inductive Cell :=
| Label (l : String.string)
| Number (q : Q)
| Var (v : V).

(** What a step adds to the model. *)
Record Added := {
  new_vars : list V;
  new_bounds : list (BoundDecl V);
  new_rows : list (Constr V)
}.

Definition nothing : Added :=
  {| new_vars := []; new_bounds := []; new_rows := [] |}.

Definition plus (a b : Added) : Added :=
  {| new_vars := new_vars a ++ new_vars b;
     new_bounds := new_bounds a ++ new_bounds b;
     new_rows := new_rows a ++ new_rows b |}.

Fixpoint traverse {A B : Type} (f : A -> option B) (l : list A)
    : option (list B) :=
  match l with
  | [] => Some []
  | u :: l' =>
      match f u, traverse f l' with
      | Some v, Some r => Some (v :: r)
      | _, _ => None
      end
  end.

(** *** Matrix-variable creation *)

(** Modelled from the spec: matrix-variable creation.  A numeric input
    becomes a matrix of variables: a variable stands for itself, a number
    is replaced by a created variable pinned to it by equal bounds, a
    label is refused. *)
Definition pin_cell (part : Part) (i j : nat) (c : Cell)
    : option (V * Added) :=
  match c with
  | Var v => Some (v, nothing)
  | Number q =>
      Some (mvar part i j,
            {| new_vars := [mvar part i j];
               new_bounds := [Fixed (mvar part i j) q];
               new_rows := [] |})
  | Label _ => None
  end.

Fixpoint pin_row (part : Part) (i j : nat) (row : list Cell)
    : option (list V * Added) :=
  match row with
  | [] => Some ([], nothing)
  | c :: row' =>
      match pin_cell part i j c, pin_row part i (S j) row' with
      | Some (v, a), Some (vs, b) => Some (v :: vs, plus a b)
      | _, _ => None
      end
  end.

Fixpoint pin (part : Part) (i : nat) (cells : list (list Cell))
    : option (list (list V) * Added) :=
  match cells with
  | [] => Some ([], nothing)
  | row :: cells' =>
      match pin_row part i 0 row, pin part (S i) cells' with
      | Some (vs, a), Some (rows, b) => Some (vs :: rows, plus a b)
      | _, _ => None
      end
  end.

(** A created matrix variable of [n] rows and [k] columns, free. *)
Definition matrix (part : Part) (n k : nat) : list (list V) :=
  map (fun i => map (mvar part i) (seq 0 k)) (seq 0 n).

Definition free (vs : list V) : Added :=
  {| new_vars := vs; new_bounds := map Free vs; new_rows := [] |}.

(** *** The column transformer *)

Definition one_hot (cats : list String.string) (c : Cell)
    : option (list Cell) :=
  match c with
  | Label l =>
      if existsb (String.eqb l) cats
      then Some (map (fun k => Number (if String.eqb l k then 1 else 0))
                     (tl cats))
      else None
  | _ => None
  end.

Fixpoint one_hot_row (cats : list (list String.string)) (row : list Cell)
    : option (list Cell) :=
  match cats, row with
  | [], [] => Some []
  | cs :: cats', c :: row' =>
      match one_hot cs c, one_hot_row cats' row' with
      | Some u, Some r => Some (u ++ r)
      | _, _ => None
      end
  | _, _ => None
  end.

Definition is_number (c : Cell) : bool :=
  match c with Number _ => true | _ => false end.

(** Scaling the numbers of a row: [(q - mean) / scale]. *)
Fixpoint scale_row (mean scale : list Q) (row : list Cell)
    : option (list Cell) :=
  match mean, scale, row with
  | [], [], [] => Some []
  | mu :: mean', sc :: scale', Number q :: row' =>
      match scale_row mean' scale' row' with
      | Some r => Some (Number ((q - mu) / sc) :: r)
      | None => None
      end
  | _, _, _ => None
  end.

(** The rows [s[i,j]: input - scale * output = mean] of a scaler. *)
Fixpoint scaler_row (i j : nat) (mean scale : list Q) (ins outs : list V)
    : list (Constr V) :=
  match mean, scale, ins, outs with
  | mu :: mean', sc :: scale', u :: ins', o :: outs' =>
      Row (scaler_s i j) [(1, u); (- sc, o)] EQUAL mu
      :: scaler_row i (S j) mean' scale' ins' outs'
  | _, _, _, _ => []
  end.

Fixpoint scaler_rows (i : nat) (mean scale : list Q)
    (ins outs : list (list V)) : list (Constr V) :=
  match ins, outs with
  | u :: ins', o :: outs' =>
      scaler_row i 0 mean scale u o ++ scaler_rows (S i) mean scale ins' outs'
  | _, _ => []
  end.

(** Modelled from the spec: a standard scaler on the columns handed to
    it.  Numbers are scaled as data; with a variable among them the step
    is translated, its input made a matrix of variables and its output a
    created one, of the input's shape. *)
Definition scaler (mean scale : list Q) (cells : list (list Cell))
    : option (list (list Cell) * Added) :=
  if forallb (forallb is_number) cells then
    match traverse (scale_row mean scale) cells with
    | Some r => Some (r, nothing)
    | None => None
    end
  else
    match pin scaler_input 0 cells with
    | Some (ins, a) =>
        if Nat.eqb (length mean) (length scale) &&
           forallb (fun r => Nat.eqb (length r) (length mean)) ins
        then
          let outs := matrix scaler_output (length ins) (length mean) in
          Some (map (map Var) outs,
                plus a
                  (plus (free (concat outs))
                        {| new_vars := []; new_bounds := [];
                           new_rows := scaler_rows 0 mean scale ins outs |}))
        else None
    | None => None
    end.

Definition transform (t : Transformer) (cells : list (list Cell))
    : option (list (list Cell) * Added) :=
  match t with
  | OneHotEncoder cats =>
      match traverse (one_hot_row cats) cells with
      | Some r => Some (r, nothing)
      | None => None
      end
  | StandardScaler mean scale => scaler mean scale cells
  | passthrough => Some (cells, nothing)
  end.

(** The columns at the given positions; a missing one is an error. *)
Definition columns_at (cols : list nat) (row : list Cell)
    : option (list Cell) :=
  traverse (nth_error row) cols.

Definition hstack (l r : list (list Cell)) : list (list Cell) :=
  map (fun lr => fst lr ++ snd lr) (combine l r).

Fixpoint column_transform (ct : ColumnTransformer)
    (cells : list (list Cell)) : option (list (list Cell) * Added) :=
  match ct with
  | [] => Some (map (fun _ => []) cells, nothing)
  | (t, cols) :: ct' =>
      match traverse (columns_at cols) cells with
      | Some sel =>
          match transform t sel, column_transform ct' cells with
          | Some (block, a), Some (rest, b) =>
              Some (hstack block rest, plus a b)
          | _, _ => None
          end
      | None => None
      end
  end.

(** *** The regression *)

(** Modelled from the spec: shape inference.  The input must have the
    regression's features in each row; outputs that are supplied must be
    one per input row, and outputs that are not are created, one per
    input row. *)
Definition regression (p : LinearRegression) (cells : list (list Cell))
    (output_vars : option (list V))
    : option (list (list V) * list V * Added) :=
  match pin regression_input 0 cells with
  | Some (rows, a) =>
      if forallb (fun r => Nat.eqb (length r) (length (coef_ p))) rows then
        match output_vars with
        | Some outs =>
            if Nat.eqb (length outs) (length rows) then
              Some (rows, outs,
                    plus a {| new_vars := []; new_bounds := [];
                              new_rows := linreg_rows p 0 rows outs |})
            else None
        | None =>
            let outs := map (fun i => mvar regression_output i 0)
                            (seq 0 (length rows)) in
            Some (rows, outs,
                  plus a
                    (plus (free outs)
                          {| new_vars := []; new_bounds := [];
                             new_rows := linreg_rows p 0 rows outs |}))
        end
      else None
  | None => None
  end.

(** Modelled from the spec: what the translation of a predictor adds,
    step by step through the pipeline. *)
Definition translate (p : Predictor) (cells : list (list Cell))
    (output_vars : option (list V))
    : option (list (list V) * list V * Added) :=
  match p with
  | Regression r => regression r cells output_vars
  | Pipeline ct r =>
      match column_transform ct cells with
      | Some (cells', a) =>
          match regression r cells' output_vars with
          | Some (rows, outs, b) => Some (rows, outs, plus a b)
          | None => None
          end
      | None => None
      end
  end.

Fixpoint distinct (l : list V) : bool :=
  match l with
  | [] => true
  | v :: l' => negb (existsb (V_eqb v) l') && distinct l'
  end.

(** The created names are new: distinct and not in the model yet. *)
Definition fresh (old new : list V) : bool :=
  distinct new && forallb (fun v => negb (existsb (V_eqb v) old)) new.

(** The object a translation returns. *)
Record PredictorConstr := {
  predictor : Predictor;
  input : list (list Cell);
  regression_rows : list (list V);
  output : list V;
  added_vars : list V;
  added_bounds : list (BoundDecl V);
  added_constrs : list (Constr V)
}.

(** Modelled from the spec:
    [add_predictor_constr(gp_model, predictor, input_vars, output_vars)],
    with [output_vars] optional.  The created columns, their bounds and
    the rows are appended to the model; nothing else of it is touched. *)
Definition add_predictor_constr (p : Predictor)
    (input_vars : list (list Cell)) (output_vars : option (list V))
    : Script V PredictorConstr :=
  fun st =>
    match translate p input_vars output_vars with
    | Some (rows, outs, a) =>
        if fresh (vars (m st)) (new_vars a) then
          Some ({| predictor := p;
                   input := input_vars;
                   regression_rows := rows;
                   output := outs;
                   added_vars := new_vars a;
                   added_bounds := new_bounds a;
                   added_constrs := new_rows a |},
                {| m := {| vars := vars (m st) ++ new_vars a;
                           objective := objective (m st);
                           constrs := constrs (m st) ++ new_rows a;
                           bounds := bounds (m st) ++ new_bounds a;
                           X := X (m st) |};
                   stdout := stdout st |})
        else None
    | None => None
    end.

(** Every bound a step declares is on a variable the step creates. *)
Definition covers (a : Added) : Prop :=
  forall b, In b (new_bounds a) -> In (bound_var b) (new_vars a).

(** What [print_stats] reports of such an object. *)
Definition counts (pc : PredictorConstr) : Stats :=
  {| n_vars := length (added_vars pc);
     n_constrs := length (added_constrs pc) |}.

End Translation.

Arguments Label {V}.
Arguments Number {V}.
Arguments Var {V}.
Arguments new_vars {V}.
Arguments new_bounds {V}.
Arguments new_rows {V}.
Arguments nothing {V}.
Arguments plus {V}.
Arguments traverse {A B}.
Arguments pin_cell {V}.
Arguments pin_row {V}.
Arguments pin {V}.
Arguments matrix {V}.
Arguments free {V}.
Arguments one_hot {V}.
Arguments one_hot_row {V}.
Arguments is_number {V}.
Arguments scale_row {V}.
Arguments scaler_row {V}.
Arguments scaler_rows {V}.
Arguments scaler {V}.
Arguments transform {V}.
Arguments columns_at {V}.
Arguments hstack {V}.
Arguments column_transform {V}.
Arguments regression {V}.
Arguments translate {V}.
Arguments distinct {V}.
Arguments fresh {V}.
Arguments predictor {V}.
Arguments input {V}.
Arguments regression_rows {V}.
Arguments output {V}.
Arguments added_vars {V}.
Arguments added_bounds {V}.
Arguments added_constrs {V}.
Arguments add_predictor_constr {V}.
Arguments covers {V}.
Arguments counts {V}.

End gurobi_ml.

(** ** The model of the price optimization notebook *)

(** The model as the notebook builds it with gurobipy-pandas: five
    families of variables indexed by the region labels, and the variables a
    translation creates. *)
Module price_optimization_model.

Import Stdlib.Strings.String.
Import price_optimization.

Inductive var :=
| price (r : string)
| x (r : string)
| s (r : string)
| w (r : string)
| demand (r : string)
| created (part : gurobi_ml.Part) (i j : nat).

Definition var_eqb (u v : var) : bool :=
  match u, v with
  | price r1, price r2 | x r1, x r2 | s r1, s r2 | w r1, w r2
  | demand r1, demand r2 => String.eqb r1 r2
  | created p1 i1 j1, created p2 i2 j2 =>
      gurobi_ml.Part_eqb p1 p2 && Nat.eqb i1 i2 && Nat.eqb j1 j2
  | _, _ => false
  end.

Definition peak_or_not : Q := 1.

Definition year : Q := 2022.

Section Data.

(** [min_delivery] and [max_delivery] of each region: the smallest and
    largest [units_sold] of the dataset, which the notebook downloads. *)
Variables min_delivery max_delivery : string -> Q.

(** The model up to the call of [add_predictor_constr]: [gppd.add_vars]
    for [p], [x], [s], [w], [d]; [m.setObjective]; [m.addConstr] and the
    three [gppd.add_constrs].  The products [p * s] of the objective carry
    the coefficient 2 of the bracket that [obj_value] halves. *)
Definition before : Model var :=
  {| vars := map price regions ++ map x regions ++ map s regions ++
             map w regions ++ map demand regions;
     objective :=
       {| sense := MAXIMIZE;
          linear := map (fun r => (- c_waste, w r)) regions ++
                    map (fun rc => (- snd rc, x (fst rc))) c_transport;
          quadratic := map (fun r => (2, price r, s r)) regions |};
     constrs :=
       [Row (R 0) (map (fun r => (1, x r)) regions) EQUAL B] ++
       map (fun kr => Row (R (1 + fst kr))
                          [(1, s (snd kr)); (-1, x (snd kr))] LESS_EQUAL 0)
           (combine (seq 0 8) regions) ++
       map (fun kr => Row (R (9 + fst kr))
                          [(1, s (snd kr)); (-1, demand (snd kr))]
                          LESS_EQUAL 0)
           (combine (seq 0 8) regions) ++
       map (fun kr => Row (R (17 + fst kr))
                          [(1, w (snd kr)); (-1, x (snd kr)); (1, s (snd kr))]
                          EQUAL 0)
           (combine (seq 0 8) regions);
     bounds :=
       map (fun r => Range a_min (price r) a_max) regions ++
       map (fun r => Range (min_delivery r) (x r) (max_delivery r)) regions ++
       map (fun r => Free (demand r)) regions;
     X := None |}.

End Data.

(** [feats]: the data frame with the columns [region], [price], [year]
    and [peak], one row per region. *)
Definition feats : list (list (gurobi_ml.Cell var)) :=
  map (fun r => [gurobi_ml.Label r; gurobi_ml.Var (price r);
                 gurobi_ml.Number year; gurobi_ml.Number peak_or_not])
      regions.

Definition d : list var := map demand regions.

(** The categories the encoder finds in the [region] column: the eight
    regions, sorted. *)
Definition region_categories : list string := [
  "Great_Lakes"; "Midsouth"; "Northeast"; "Northern_New_England"; "Plains";
  "SouthCentral"; "Southeast"; "West"]%string.

(** [feat_transform]: the one-hot encoder (dropping the first category) on
    [region], the standard scaler on [price] and [year], [peak] passed
    through.  The scaler's fitted mean and scale are taken as given. *)
Definition feat_transform (mean_ scale_ : list Q)
    : gurobi_ml.ColumnTransformer := [
  (gurobi_ml.OneHotEncoder [region_categories], [0%nat]);
  (gurobi_ml.StandardScaler mean_ scale_, [1%nat; 2%nat]);
  (gurobi_ml.passthrough, [3%nat])].

(** [lin_reg = make_pipeline(feat_transform, LinearRegression())], fitted. *)
Definition lin_reg (mean_ scale_ : list Q) (p : LinearRegression)
    : gurobi_ml.Predictor :=
  gurobi_ml.Pipeline (feat_transform mean_ scale_) p.

(** *** Sample values *)

(** Values standing for the fitted attributes and the dataset's delivery
    bounds, which the repository does not hold. *)
Definition sample_regression : LinearRegression :=
  {| coef_ := [-0.2; 1.4; -3; -1.8; 1.7; 0.6; 2.6; -0.4; 0.3; 0.5];
     intercept_ := 3.9 |}.

Definition sample_mean : list Q := [1.1; 2018.5].

Definition sample_scale : list Q := [0.2; 2.3].

Definition sample_min (r : string) : Q := 0.2.

Definition sample_max (r : string) : Q := 11.

Definition sample_start : World var :=
  {| m := before sample_min sample_max; stdout := [] |}.

(** A regression on the price alone, over the one-column matrix of the
    prices. *)
Definition sample_price_regression : LinearRegression :=
  {| coef_ := [-1.5]; intercept_ := 3.9 |}.

Definition prices : list (list var) := map (fun r => [price r]) regions.

End price_optimization_model.

(** * Properties *)

(** ** Semantics of rows and bounds *)

Section LP_facts.

Variable V : Type.
Variable V_eqb : V -> V -> bool.

Lemma holdsb_iff (a : V -> Q) (c : Constr V) : holdsb a c = true <-> holds a c.
Proof.
  unfold holdsb, holds. destruct (rel c).
  - apply Qle_bool_iff.
  - apply Qle_bool_iff.
  - apply Qeq_bool_iff.
Qed.

Lemma withinb_iff (b : Interval) (q : Q) : withinb b q = true <-> within b q.
Proof.
  unfold withinb, within. rewrite andb_true_iff.
  destruct (fst b), (snd b); rewrite ?Qle_bool_iff; intuition.
Qed.

Lemma feasibleb_iff (mdl : Model V) (a : V -> Q) :
  feasibleb V_eqb mdl a = true <-> feasible V_eqb mdl a.
Proof.
  unfold feasibleb, feasible.
  rewrite andb_true_iff, !forallb_forall, !Forall_forall.
  split; intros [Hc Hb]; split; intros u Hu.
  - apply holdsb_iff; auto.
  - apply withinb_iff; auto.
  - apply holdsb_iff; auto.
  - apply withinb_iff; auto.
Qed.

Lemma find_row_In (n : RowName) (cs : list (Constr V)) (c : Constr V) :
  find_row n cs = Some c -> In c cs.
Proof. intros H. apply find_some in H. tauto. Qed.

Lemma feasible_row (mdl : Model V) (a : V -> Q) (n : RowName) (c : Constr V) :
  feasible V_eqb mdl a -> find_row n (constrs mdl) = Some c -> holds a c.
Proof.
  intros [Hc _] H. rewrite Forall_forall in Hc.
  apply Hc. eapply find_row_In; eauto.
Qed.

Lemma feasible_bounds (mdl : Model V) (a : V -> Q) (v : V) :
  feasible V_eqb mdl a -> In v (vars mdl) ->
  within (bounds_of V_eqb (bounds mdl) v) (a v).
Proof. intros [_ Hb] H. rewrite Forall_forall in Hb. auto. Qed.

Lemma eval_app (a : V -> Q) (e1 e2 : LinExpr V) :
  eval a (e1 ++ e2) == eval a e1 + eval a e2.
Proof.
  induction e1 as [|t e1 IH]; simpl.
  - lra.
  - rewrite IH. lra.
Qed.

Lemma eval_neg_terms (a : V -> Q) (c : list Q) (row : list V) :
  eval a (neg_terms c row) == - dot c (map a row).
Proof.
  revert row. induction c as [|ci c IH]; intros [|v row]; simpl; try lra.
  rewrite IH. lra.
Qed.

(** A translated row holds exactly when its output is the prediction. *)
Lemma holds_linreg_row (p : LinearRegression) (i : nat) (row : list V)
    (out : V) (a : V -> Q) :
  holds a (linreg_row p i row out) <-> a out == predict p (map a row).
Proof.
  unfold holds, linreg_row, predict; simpl.
  rewrite eval_app, eval_neg_terms. simpl.
  split; intros H; lra.
Qed.

(** *** The translated rows *)

Lemma linreg_rows_length (p : LinearRegression) (i : nat)
    (rows : list (list V)) (outs : list V) :
  length rows = length outs ->
  length (linreg_rows p i rows outs) = length rows.
Proof.
  revert i outs. induction rows as [|r rows IH]; intros i [|o outs] H;
    simpl in *; try discriminate; auto.
Qed.

Lemma linreg_rows_names (p : LinearRegression) (i : nat)
    (rows : list (list V)) (outs : list V) :
  length rows = length outs ->
  map name (linreg_rows p i rows outs)
  = map (fun k => linreg k 0) (seq i (length rows)).
Proof.
  revert i outs. induction rows as [|r rows IH]; intros i [|o outs] H;
    simpl in *; try discriminate; auto.
  f_equal. apply IH. lia.
Qed.

(** The body of a translated row depends on its input row and output
    only, not on its position. *)
Lemma linreg_rows_body (p : LinearRegression) (i : nat)
    (rows : list (list V)) (outs : list V) :
  map body (linreg_rows p i rows outs)
  = map (fun rv => body (linreg_row p 0 (fst rv) (snd rv)))
        (combine rows outs).
Proof.
  revert i outs. induction rows as [|r rows IH]; intros i [|o outs];
    simpl; auto.
  f_equal. apply IH.
Qed.

Lemma In_linreg_rows (p : LinearRegression) (i : nat)
    (rows : list (list V)) (outs : list V) (r : list V) (o : V) :
  In (r, o) (combine rows outs) ->
  exists k, In (linreg_row p k r o) (linreg_rows p i rows outs).
Proof.
  revert i outs. induction rows as [|r' rows IH]; intros i [|o' outs] H;
    simpl in *; try contradiction.
  destruct H as [H|H].
  - inversion H; subst. exists i. auto.
  - destruct (IH (S i) _ H) as [k Hk]. exists k. auto.
Qed.

Lemma shapes_agree_iff (p : LinearRegression)
    (rows : list (list V)) (outs : list V) :
  shapes_agree p rows outs = true <->
  length rows = length outs /\
  Forall (fun r => length r = length (coef_ p)) rows.
Proof.
  unfold shapes_agree.
  rewrite andb_true_iff, Nat.eqb_eq, forallb_forall, Forall_forall.
  split; intros [H1 H2]; split; auto; intros r Hr.
  - apply Nat.eqb_eq; auto.
  - apply Nat.eqb_eq; auto.
Qed.

(** What a successful translation returns. *)
Lemma add_predictor_constr_inv (p : LinearRegression)
    (rows : list (list V)) (outs : list V)
    (st st' : World V) (pc : PredConstr V) :
  add_predictor_constr p rows outs st = Some (pc, st') ->
  shapes_agree p rows outs = true /\
  pc = {| predictor := p; input := rows; output := outs;
          added_vars := [];
          added_constrs := linreg_rows p 0 rows outs |} /\
  st' = {| m := {| vars := vars (m st);
                   objective := objective (m st);
                   constrs := constrs (m st) ++ linreg_rows p 0 rows outs;
                   bounds := bounds (m st);
                   X := X (m st) |};
           stdout := stdout st |}.
Proof.
  unfold add_predictor_constr.
  destruct (shapes_agree p rows outs); intros H; inversion H; auto.
Qed.

(** *** Selecting rows *)

Lemma nth_error_combine {A B : Type} (l1 : list A) (l2 : list B) (k : nat) :
  nth_error (combine l1 l2) k =
  match nth_error l1 k, nth_error l2 k with
  | Some u, Some v => Some (u, v)
  | _, _ => None
  end.
Proof.
  revert l2 k. induction l1 as [|u l1 IH]; intros [|v l2] [|k]; simpl; auto.
  - destruct (nth_error l1 k); auto.
Qed.

Lemma select_map {A B : Type} (f : A -> B) (sel : list nat) (l : list A) :
  select sel (map f l) = map f (select sel l).
Proof.
  unfold select. induction sel as [|k sel IH]; simpl; auto.
  rewrite map_app, IH, nth_error_map.
  destruct (nth_error l k); auto.
Qed.

Lemma select_combine {A B : Type} (sel : list nat)
    (l1 : list A) (l2 : list B) :
  length l1 = length l2 ->
  select sel (combine l1 l2) = combine (select sel l1) (select sel l2).
Proof.
  intros L. unfold select. induction sel as [|k sel IH]; simpl; auto.
  rewrite IH, nth_error_combine.
  destruct (nth_error l1 k) eqn:E1, (nth_error l2 k) eqn:E2; simpl; auto.
  - apply nth_error_None in E2.
    assert (nth_error l1 k <> None) by congruence.
    apply nth_error_Some in H. lia.
  - apply nth_error_None in E1.
    assert (nth_error l2 k <> None) by congruence.
    apply nth_error_Some in H. lia.
Qed.

(** *** The largest error *)

Lemma fold_left_Qmax_ge (l : list Q) (e : Q) :
  e <= fold_left Qmax l e /\ Forall (fun q => q <= fold_left Qmax l e) l.
Proof.
  revert e. induction l as [|q l IH]; intros e; simpl.
  - split; [lra | constructor].
  - destruct (IH (Qmax e q)) as [H1 H2]. split; [|constructor; auto].
    + pose proof (Q.le_max_l e q). lra.
    + pose proof (Q.le_max_r e q). lra.
Qed.

Lemma np_max_ge (l : list Q) (M : Q) :
  np_max l = Some M -> Forall (fun q => q <= M) l.
Proof.
  destruct l as [|e l]; simpl; intros H; inversion H; subst.
  destruct (fold_left_Qmax_ge l e). constructor; auto.
Qed.

Lemma fold_left_Qmax_zero (l : list Q) (e : Q) :
  e == 0 -> Forall (fun q => q == 0) l -> fold_left Qmax l e == 0.
Proof.
  revert e. induction l as [|q l IH]; intros e He Hl; simpl; auto.
  inversion Hl; subst. apply IH; auto.
  rewrite Q.max_r; lra.
Qed.

Lemma np_max_zero (l : list Q) (M : Q) :
  Forall (fun q => q == 0) l -> np_max l = Some M -> M == 0.
Proof.
  destruct l as [|e l]; simpl; intros Hl H; inversion H; subst.
  inversion Hl; subst. apply fold_left_Qmax_zero; auto.
Qed.

Lemma Qabs_zero (q : Q) : Qabs q <= 0 -> q == 0.
Proof.
  intros H. apply Qabs_Qle_condition in H. lra.
Qed.

(** ** The notebook statements *)

(** C9. [print_stats] only reports: it prints the numbers of variables and
    rows the translation added, the model is the same after the call as
    before, and a second call prints the same statistics again. *)
Theorem print_stats_reports (pc : PredConstr V) (st : World V) :
  exists st',
    print_stats pc st = Some (tt, st') /\
    m st' = m st /\
    stdout st' = stdout st ++ [stats pc] /\
    n_vars (stats pc) = length (added_vars pc) /\
    n_constrs (stats pc) = length (added_constrs pc) /\
    exists st'',
      print_stats pc st' = Some (tt, st'') /\
      m st'' = m st /\
      stdout st'' = stdout st ++ [stats pc; stats pc].
Proof.
  eexists. split; [reflexivity|]. cbn [m stdout].
  repeat split.
  eexists. split; [reflexivity|]. cbn [m stdout].
  split; [reflexivity|]. now rewrite <- app_assoc.
Qed.

(** C2. Once the model holds a solution, [get_error] returns, for every
    input row, the distance between the prediction at the solution values
    of the row and the solution value of its output, one entry per output;
    when the largest entry is zero, every output is the prediction. *)
Theorem get_error_measures (p : LinearRegression)
    (rows : list (list V)) (outs : list V) (st0 st1 st : World V)
    (pc : PredConstr V) (a : V -> Q) :
  add_predictor_constr p rows outs st0 = Some (pc, st1) ->
  X (m st) = Some a ->
  exists errs,
    get_error pc st = Some (errs, st) /\
    length errs = length outs /\
    (forall k r o,
        nth_error rows k = Some r -> nth_error outs k = Some o ->
        nth_error errs k = Some (Qabs (predict p (map a r) - a o))) /\
    (forall M,
        np_max errs = Some M -> M <= 0 ->
        forall k r o,
          nth_error rows k = Some r -> nth_error outs k = Some o ->
          a o == predict p (map a r)).
Proof.
  intros H HX. apply add_predictor_constr_inv in H.
  destruct H as (Sh & -> & _). apply shapes_agree_iff in Sh.
  destruct Sh as [L _].
  unfold get_error. rewrite HX. cbn [predictor input output].
  eexists. split; [reflexivity|].
  assert (E : forall k r o,
             nth_error rows k = Some r -> nth_error outs k = Some o ->
             nth_error (map (row_error p a) (combine rows outs)) k
             = Some (Qabs (predict p (map a r) - a o))).
  { intros k r o Hr Ho.
    rewrite nth_error_map, nth_error_combine, Hr, Ho. reflexivity. }
  split; [|split].
  - rewrite length_map, length_combine. lia.
  - exact E.
  - intros M HM HM0 k r o Hr Ho.
    apply np_max_ge in HM. rewrite Forall_forall in HM.
    specialize (HM _ (nth_error_In _ _ (E k r o Hr Ho))).
    assert (Z : predict p (map a r) - a o == 0) by (apply Qabs_zero; lra).
    lra.
Qed.

(** At a feasible point of the translated model every error is zero. *)
Lemma get_error_feasible (p : LinearRegression)
    (rows : list (list V)) (outs : list V) (st0 st1 st : World V)
    (pc : PredConstr V) (a : V -> Q) (errs : list Q) :
  add_predictor_constr p rows outs st0 = Some (pc, st1) ->
  X (m st) = Some a ->
  feasible V_eqb (m st1) a ->
  get_error pc st = Some (errs, st) ->
  Forall (fun e => e == 0) errs.
Proof.
  intros H HX F G. apply add_predictor_constr_inv in H.
  destruct H as (_ & -> & ->).
  unfold get_error in G. rewrite HX in G. cbn [predictor input output] in G.
  inversion G; subst errs. clear G.
  destruct F as [Hc _]. cbn [m constrs] in Hc.
  apply Forall_app in Hc. destruct Hc as [_ Hc].
  rewrite Forall_forall in Hc.
  apply Forall_forall. intros e He. apply in_map_iff in He.
  destruct He as ([r o] & <- & Hin).
  destruct (In_linreg_rows p 0 _ _ _ _ Hin) as [k Hk].
  apply Hc in Hk. apply holds_linreg_row in Hk.
  unfold row_error. cbn [fst snd].
  rewrite (Qabs_wd _ 0) by lra. reflexivity.
Qed.

End LP_facts.

Arguments feasible_row {V}.
Arguments feasible_bounds {V}.
Arguments feasibleb_iff {V}.
Arguments holds_linreg_row {V}.
Arguments get_error_feasible {V}.

Module Avocado_Props.

Import Avocado_Price_Allocation.

(** Case analysis on the eight regions and the ten features. *)
Lemma below_cases (n : nat) (P : nat -> Prop) :
  Forall P (seq 0 n) -> forall i, (i < n)%nat -> P i.
Proof.
  intros H i Hi. rewrite Forall_forall in H.
  apply H, in_seq. lia.
Qed.

Ltac each_below i Hi :=
  pattern i; apply (below_cases _ _) with (2 := Hi); clear i Hi;
  repeat apply Forall_cons; [ .. | apply Forall_nil ].

Lemma point_feasible : feasible var_eqb model point.
Proof. apply feasibleb_iff. vm_compute. reflexivity. Qed.

(** C6. Material balance: in every feasible solution of the written model
    the allocations sum to the supply 30, and in each region the
    allocation splits into sold and wasted quantities, both nonnegative by
    their default bounds, the sold quantity being at most the allocation
    and at most the predicted demand. *)
Theorem material_balance (a : var -> Q) :
  feasible var_eqb model a ->
  a (x 0) + a (x 1) + a (x 2) + a (x 3) + a (x 4) + a (x 5) + a (x 6)
    + a (x 7) == 30 /\
  forall i, (i < 8)%nat ->
    a (x i) == a (s i) + a (w i) /\
    a (s i) <= a (x i) /\
    a (s i) <= a (demand i) /\
    0 <= a (s i) /\
    0 <= a (w i) /\
    a (w i) == a (x i) - a (s i) /\
    bounds_of var_eqb Bounds (s i) = default_bounds /\
    bounds_of var_eqb Bounds (w i) = default_bounds.
Proof.
  intros F. split.
  - pose proof (feasible_row var_eqb model a (R 0) _ F eq_refl) as H.
    cbv [holds eval fold_right lhs rel rhs fst snd] in H. lra.
  - intros i Hi. each_below i Hi.
    all: match goal with |- context [x ?k] =>
      pose proof (feasible_row var_eqb model a (R (1 + k)) _ F eq_refl) as H1;
      pose proof (feasible_row var_eqb model a (R (9 + k)) _ F eq_refl) as H2;
      pose proof (feasible_row var_eqb model a (R (17 + k)) _ F eq_refl) as H3;
      assert (Bs : within (bounds_of var_eqb Bounds (s k)) (a (s k)))
        by (apply (feasible_bounds var_eqb model a (s k) F);
            vm_compute; tauto);
      assert (Bw : within (bounds_of var_eqb Bounds (w k)) (a (w k)))
        by (apply (feasible_bounds var_eqb model a (w k) F);
            vm_compute; tauto)
    end.
    all: cbv [holds eval fold_right lhs rel rhs fst snd] in H1, H2, H3.
    all: destruct Bs as [Bs _]; destruct Bw as [Bw _].
    all: cbn in Bs, Bw.
    all: repeat split; try reflexivity; lra.
Qed.

(** C1. For each of the eight input rows the written model has exactly one
    row of the translation: the equality [linreg[i,0]], which holds exactly
    when [demand[i]] is the regression's prediction on [reg_features[i,.]];
    so in every feasible solution the modeled demand is the prediction. *)
Theorem linreg_row_forces_prediction (i : nat) :
  (i < 8)%nat ->
  exists c,
    rows_of_input i = [c] /\
    name c = linreg i 0 /\
    rel c = EQUAL /\
    (forall a, holds a c <->
               a (demand i) == predict lin_reg (map a (feats_row i))) /\
    (forall a, feasible var_eqb model a ->
               a (demand i) == predict lin_reg (map a (feats_row i))).
Proof.
  intros Hi. each_below i Hi.
  all: match goal with |- context [rows_of_input ?k] =>
    exists (linreg_row lin_reg k (feats_row k) (demand k));
    split; [vm_compute; reflexivity|];
    split; [reflexivity|]; split; [reflexivity|]; split;
    [ intros a; apply holds_linreg_row
    | intros a F; apply (holds_linreg_row lin_reg k);
      exact (feasible_row var_eqb model a (linreg k 0) _ F eq_refl) ]
  end.
Qed.

Lemma linreg_row_forces_prediction_witness :
  (3 < 8)%nat /\
  exists c,
    rows_of_input 3 = [c] /\
    name c = linreg 3 0 /\
    rel c = EQUAL /\
    (forall a, holds a c <->
               a (demand 3) == predict lin_reg (map a (feats_row 3))) /\
    (forall a, feasible var_eqb model a ->
               a (demand 3) == predict lin_reg (map a (feats_row 3))).
Proof.
  split; [lia | apply (linreg_row_forces_prediction 3); lia].
Defined.

Lemma material_balance_witness :
  feasible var_eqb model point /\
  (point (x 0) + point (x 1) + point (x 2) + point (x 3) + point (x 4)
     + point (x 5) + point (x 6) + point (x 7) == 30 /\
   forall i, (i < 8)%nat ->
     point (x i) == point (s i) + point (w i) /\
     point (s i) <= point (x i) /\
     point (s i) <= point (demand i) /\
     0 <= point (s i) /\
     0 <= point (w i) /\
     point (w i) == point (x i) - point (s i) /\
     bounds_of var_eqb Bounds (s i) = default_bounds /\
     bounds_of var_eqb Bounds (w i) = default_bounds).
Proof.
  split; [exact point_feasible | apply (material_balance point)].
  exact point_feasible.
Defined.

Lemma In_columns (i j : nat) :
  In (reg_features i j) columns <-> (i < 8)%nat /\ (j < 10)%nat.
Proof.
  unfold columns. rewrite !in_app_iff, in_flat_map, !in_map_iff.
  split.
  - intros [H|[H|[H|[H|H]]]].
    + destruct H as (k & E & _); discriminate.
    + destruct H as (k & E & _); discriminate.
    + destruct H as (k & E & _); discriminate.
    + destruct H as (k & Hk & H). apply in_map_iff in H.
      destruct H as (l & E & Hl). inversion E; subst.
      apply in_seq in Hk, Hl. lia.
    + destruct H as (k & E & _); discriminate.
  - intros [Hi Hj]. right; right; right; left.
    exists i. split; [apply in_seq; lia|].
    apply in_map. apply in_seq. lia.
Qed.

(** C5. The written model holds the 8 by 10 matrix [reg_features]; its
    region columns 0 to 6 are fixed to 0 or 1, its year column 7 to 7 and
    its peak column 9 to 1, each by equal lower and upper bounds, with at
    most one region column set in a row; only the
    price column 8 is left free, between 0 and 2, and it is the factor of
    [s[i]] in the quadratic part of the objective. *)
Theorem reg_features_matrix :
  (forall i j, In (reg_features i j) (vars model) <->
               (i < 8)%nat /\ (j < 10)%nat) /\
  (forall i j, (i < 8)%nat -> (j < 7)%nat ->
     bounds_of var_eqb Bounds (reg_features i j) = (Some 0, Some 0) \/
     bounds_of var_eqb Bounds (reg_features i j) = (Some 1, Some 1)) /\
  (forall i, (i < 8)%nat ->
     bounds_of var_eqb Bounds (reg_features i 7) = (Some 7, Some 7) /\
     bounds_of var_eqb Bounds (reg_features i 9) = (Some 1, Some 1) /\
     bounds_of var_eqb Bounds (reg_features i 8) = (Some 0, Some 2)) /\
  (forall i j j', (i < 8)%nat -> (j < 7)%nat -> (j' < 7)%nat ->
     bounds_of var_eqb Bounds (reg_features i j) = (Some 1, Some 1) ->
     bounds_of var_eqb Bounds (reg_features i j') = (Some 1, Some 1) ->
     j = j') /\
  quadratic Maximize = map (fun i => (2, s i, reg_features i 8)) (seq 0 8) /\
  (forall a, feasible var_eqb model a ->
     forall i, (i < 8)%nat ->
       (forall j, (j < 7)%nat ->
          a (reg_features i j) == 0 \/ a (reg_features i j) == 1) /\
       a (reg_features i 7) == 7 /\
       a (reg_features i 9) == 1 /\
       0 <= a (reg_features i 8) <= 2) /\
  (forall a,
     obj_value a Maximize ==
     eval a (linear Maximize) +
     (a (s 0) * a (reg_features 0 8) + a (s 1) * a (reg_features 1 8) +
      a (s 2) * a (reg_features 2 8) + a (s 3) * a (reg_features 3 8) +
      a (s 4) * a (reg_features 4 8) + a (s 5) * a (reg_features 5 8) +
      a (s 6) * a (reg_features 6 8) + a (s 7) * a (reg_features 7 8))).
Proof.
  assert (B06 : forall i j, (i < 8)%nat -> (j < 7)%nat ->
     bounds_of var_eqb Bounds (reg_features i j) = (Some 0, Some 0) \/
     bounds_of var_eqb Bounds (reg_features i j) = (Some 1, Some 1)).
  { intros i j Hi Hj. each_below i Hi. all: each_below j Hj.
    all: vm_compute; auto. }
  assert (B789 : forall i, (i < 8)%nat ->
     bounds_of var_eqb Bounds (reg_features i 7) = (Some 7, Some 7) /\
     bounds_of var_eqb Bounds (reg_features i 9) = (Some 1, Some 1) /\
     bounds_of var_eqb Bounds (reg_features i 8) = (Some 0, Some 2)).
  { intros i Hi. each_below i Hi. all: vm_compute; auto. }
  split; [exact In_columns|]. split; [exact B06|]. split; [exact B789|].
  split.
  { intros i j j' Hi Hj Hj'. each_below i Hi. all: each_below j Hj.
    all: each_below j' Hj'.
    all: vm_compute; intros E1 E2; first [reflexivity | discriminate]. }
  split; [reflexivity|]. split.
  - intros a F i Hi.
    assert (W : forall j, (j < 10)%nat ->
              within (bounds_of var_eqb Bounds (reg_features i j))
                     (a (reg_features i j))).
    { intros j Hj. apply (feasible_bounds var_eqb model a _ F).
      apply In_columns. auto. }
    destruct (B789 i Hi) as (E7 & E9 & E8).
    pose proof (W 7%nat ltac:(lia)) as W7. rewrite E7 in W7.
    pose proof (W 9%nat ltac:(lia)) as W9. rewrite E9 in W9.
    pose proof (W 8%nat ltac:(lia)) as W8. rewrite E8 in W8.
    unfold within in W7, W8, W9. cbn [fst snd] in W7, W8, W9.
    repeat split; try lra.
    intros j Hj. pose proof (W j ltac:(lia)) as Wj.
    destruct (B06 i j Hi Hj) as [E|E]; rewrite E in Wj;
      unfold within in Wj; cbn [fst snd] in Wj; [left|right]; lra.
  - intros a. unfold obj_value.
    cbv [Maximize quadratic eval_quad fold_right fst snd]. field.
Qed.

Lemma reg_features_matrix_witness :
  feasible var_eqb model point /\ (3 < 8)%nat /\
  ((forall j, (j < 7)%nat ->
      point (reg_features 3 j) == 0 \/ point (reg_features 3 j) == 1) /\
   point (reg_features 3 7) == 7 /\
   point (reg_features 3 9) == 1 /\
   0 <= point (reg_features 3 8) <= 2).
Proof.
  split; [exact point_feasible | split; [lia|]].
  apply (proj1 (proj2 (proj2 (proj2 (proj2 (proj2 reg_features_matrix)))))
           point);
    [exact point_feasible | lia].
Defined.

Lemma select_seq_app {A : Type} (pre l : list A) :
  select (seq (length pre) (length l)) (pre ++ l) = l.
Proof.
  revert pre. induction l as [|v l IH]; intros pre; simpl; auto.
  rewrite nth_error_app2, Nat.sub_diag by lia. simpl. f_equal.
  specialize (IH (pre ++ [v])).
  rewrite length_app, <- app_assoc in IH. simpl in IH.
  rewrite Nat.add_1_r in IH. exact IH.
Qed.

(** Selecting by a permutation of all indices permutes the rows. *)
Lemma select_permutation {A : Type} (sel : list nat) (l : list A) :
  Permutation sel (seq 0 (length l)) -> Permutation (select sel l) l.
Proof.
  intros P. unfold select.
  rewrite (Permutation_flat_map _ P).
  pose proof (select_seq_app [] l) as E. unfold select in E.
  simpl in E. rewrite E. reflexivity.
Qed.

(** C7. The eight regression rows of the written model carry one and the
    same coefficient vector and right-hand side, each on its own input
    row; and the translation treats rows alike: translating a selection
    (or permutation) of the input rows gives the same selection of the
    translated rows. *)
Theorem linreg_rows_uniform :
  (forall i, (i < 8)%nat ->
     find_row (linreg i 0) Subject_To =
     Some (Row (linreg i 0)
               (combine [0.2426931536778747; -1.433019836643237;
                         3.01924379063788; 1.815032872390411;
                         -1.713812073973461; -0.5839901666611677;
                         -2.601799448641272; -0.1607693023184433;
                         2.203770104890248; -0.5485105058308409]
                        (feats_row i) ++ [(1, demand i)])
               EQUAL 5.439310052165032)) /\
  (forall (V : Type) (p : LinearRegression) (sel : list nat)
          (rows : list (list V)) (outs : list V),
     length rows = length outs ->
     map body (linreg_rows p 0 (select sel rows) (select sel outs))
     = select sel (map body (linreg_rows p 0 rows outs))) /\
  map body (filter (fun c => is_linreg (name c)) Subject_To)
  = map body (linreg_rows lin_reg 0 feats d).
Proof.
  split; [|split].
  - intros i Hi. each_below i Hi. all: vm_compute; reflexivity.
  - intros V p sel rows outs L.
    rewrite !linreg_rows_body, select_map.
    f_equal. symmetry. apply select_combine. exact L.
  - vm_compute. reflexivity.
Qed.

Lemma linreg_rows_uniform_witness :
  (5 < 8)%nat /\
  find_row (linreg 5 0) Subject_To =
  Some (Row (linreg 5 0)
            (combine [0.2426931536778747; -1.433019836643237;
                      3.01924379063788; 1.815032872390411;
                      -1.713812073973461; -0.5839901666611677;
                      -2.601799448641272; -0.1607693023184433;
                      2.203770104890248; -0.5485105058308409]
                     (feats_row 5) ++ [(1, demand 5)])
            EQUAL 5.439310052165032) /\
  length feats = length d /\
  map body (linreg_rows lin_reg 0 (select [7; 0; 3]%nat feats)
                                  (select [7; 0; 3]%nat d))
  = select [7; 0; 3]%nat (map body (linreg_rows lin_reg 0 feats d)).
Proof.
  split; [lia|]. split; [apply (proj1 linreg_rows_uniform 5%nat); lia|].
  split; [reflexivity|].
  apply (proj1 (proj2 linreg_rows_uniform) var lin_reg); reflexivity.
Defined.

(** *** The notebook, run *)

(** The written model is the notebook's model after the translation. *)
Lemma translation_returns :
  add_predictor_constr lin_reg feats d start = Some (pred_constr, translated).
Proof. vm_compute. reflexivity. Qed.

Lemma get_error_measures_witness :
  add_predictor_constr lin_reg feats d start = Some (pred_constr, translated)
  /\ X (m solved) = Some point /\
  exists errs,
    get_error pred_constr solved = Some (errs, solved) /\
    length errs = length d /\
    (forall k r o,
        nth_error feats k = Some r -> nth_error d k = Some o ->
        nth_error errs k = Some (Qabs (predict lin_reg (map point r) - point o)))
    /\
    (forall M,
        np_max errs = Some M -> M <= 0 ->
        forall k r o,
          nth_error feats k = Some r -> nth_error d k = Some o ->
          point o == predict lin_reg (map point r)).
Proof.
  split; [exact translation_returns|]. split; [reflexivity|].
  apply (get_error_measures var lin_reg feats d start translated).
  - exact translation_returns.
  - reflexivity.
Defined.

Lemma point_solver_model : point_solver model = Some point.
Proof.
  unfold point_solver.
  replace (feasibleb var_eqb model point) with true
    by (vm_compute; reflexivity).
  reflexivity.
Qed.

(** Run on the written model's inputs with a solver that returns the
    feasible [point], these steps print that 0 variables and 8 rows were
    added and measure a largest error of zero.  (The notebook's own call,
    on its pipeline and data frame, adds 88 variables and 24 rows:
    [gurobi_ml_Props.pipeline_translation].) *)
Lemma notebook_run :
  exists M,
    notebook point_solver start = Some (Some M, solved) /\
    M == 0 /\
    stdout solved = [{| n_vars := 0; n_constrs := 8 |}].
Proof.
  assert (E : exists errs, get_error pred_constr solved = Some (errs, solved))
    by (eexists; reflexivity).
  destruct E as [errs E].
  assert (Z : Forall (fun e => e == 0) errs).
  { apply (get_error_feasible var_eqb lin_reg feats d start translated
             solved pred_constr point errs);
      [exact translation_returns | reflexivity | exact point_feasible
      | exact E]. }
  assert (N : exists M, np_max errs = Some M /\ M == 0).
  { destruct errs as [|e errs'].
    - discriminate E.
    - eexists. split; [reflexivity|].
      apply (np_max_zero (e :: errs')); auto. }
  destruct N as (M & HM & HM0). exists M. split; [|split; auto].
  unfold notebook, bind.
  rewrite translation_returns.
  unfold print_stats, optimize. cbn [m translated stdout vars objective
    constrs bounds X app].
  change {| vars := vars model; objective := objective model;
            constrs := constrs model; bounds := bounds model;
            X := X model |} with model.
  rewrite point_solver_model.
  change {| m := {| vars := vars model; objective := objective model;
                    constrs := constrs model; bounds := bounds model;
                    X := Some point |};
            stdout := [stats pred_constr] |} with solved.
  rewrite E. unfold ret. rewrite HM. reflexivity.
Qed.

End Avocado_Props.

Module adversarial_mnist_Props.

Import adversarial_mnist.

Section Ball.

Variable example : list Q.
Variable n_labels : nat.
Variables wrong_label right_label : nat.
Variable nn_vars : list var.
Variable nn_bounds : list (BoundDecl var).
Variable nn_rows : list (Constr var).

Lemma bounds_of_pixel (rest : list (BoundDecl var)) (i n k : nat) :
  (i <= k < i + n)%nat ->
  bounds_of var_eqb (map (fun j => Range 0 (x 0 j) 1) (seq i n) ++ rest)
            (x 0 k)
  = (Some 0, Some 1).
Proof.
  revert i. induction n as [|n IH]; intros i H; [lia|].
  unfold bounds_of in *. simpl.
  destruct (Nat.eqb i k) eqn:E.
  - reflexivity.
  - apply Nat.eqb_neq in E. apply IH. lia.
Qed.

(** Summing a pointwise bound over the pixels. *)
Lemma sum_abs_le (a : var -> Q) (ks : list nat) :
  (forall k, In k ks ->
     Qabs (a (x 0 k) - nth k example 0) <= a (abs_diff 0 k)) ->
  fold_right Qplus 0
    (map (fun k => Qabs (a (x 0 k) - nth k example 0)) ks)
  <= eval a (map (fun k => (1, abs_diff 0 k)) ks).
Proof.
  unfold eval.
  induction ks as [|k ks IH]; intros H; cbn [map fold_right fst snd].
  - lra.
  - pose proof (H k (or_introl eq_refl)) as Hk.
    assert (IH' := IH (fun j Hj => H j (or_intror Hj))).
    lra.
Qed.

(** C8. In the adversarial model every feasible assignment keeps each
    pixel of [x] in [0, 1], has [abs_diff] above the absolute deviation of
    each pixel from the example, and so stays in the L1 ball of radius
    delta = 5 around the example, whatever the network's rows are. *)
Theorem l1_ball (a : var -> Q) :
  feasible var_eqb
    (model example n_labels wrong_label right_label nn_vars nn_bounds nn_rows)
    a ->
  (forall k, (k < length example)%nat ->
     0 <= a (x 0 k) <= 1 /\
     Qabs (a (x 0 k) - nth k example 0) <= a (abs_diff 0 k)) /\
  norm1 example a <= delta /\
  delta == 5.
Proof.
  intros [Hc Hb].
  unfold model in Hc, Hb. cbn [constrs vars bounds] in Hc, Hb.
  apply Forall_app in Hc. destruct Hc as [Ha Hc].
  apply Forall_app in Hc. destruct Hc as [Hl Hc].
  apply Forall_app in Hc. destruct Hc as [Hs _].
  rewrite Forall_forall in Ha, Hl.
  assert (D : forall k, (k < length example)%nat ->
            Qabs (a (x 0 k) - nth k example 0) <= a (abs_diff 0 k)).
  { intros k Hk.
    assert (Hin : In k (pixels example)) by (apply in_seq; lia).
    pose proof (Ha _ (in_map (above example) _ _ Hin)) as H1.
    pose proof (Hl _ (in_map (below example) _ _ Hin)) as H2.
    cbv [holds above below eval fold_right lhs rel rhs fst snd] in H1, H2.
    apply Qabs_Qle_condition. split; lra. }
  split; [|split].
  - intros k Hk. split; [|exact (D k Hk)].
    apply Forall_app in Hb. destruct Hb as [Hx _].
    rewrite Forall_forall in Hx.
    assert (Hin : In (x 0 k) (addMVar x (length example)))
      by (apply in_map, in_seq; lia).
    apply Hx in Hin. unfold pixels in Hin.
    rewrite bounds_of_pixel in Hin by lia.
    unfold within in Hin. cbn [fst snd] in Hin. exact Hin.
  - inversion Hs as [|c cs Hbud _]; subst.
    cbv [holds budget lhs rel rhs] in Hbud.
    unfold norm1.
    eapply Qle_trans; [apply sum_abs_le | exact Hbud].
    intros k Hk. apply D. apply in_seq in Hk. lia.
  - reflexivity.
Qed.

End Ball.

Lemma nearby_feasible :
  feasible var_eqb (model image 10 3 8 [] [] []) nearby.
Proof. apply feasibleb_iff. vm_compute. reflexivity. Qed.

Lemma l1_ball_witness :
  feasible var_eqb (model image 10 3 8 [] [] []) nearby /\
  ((forall k, (k < length image)%nat ->
      0 <= nearby (x 0 k) <= 1 /\
      Qabs (nearby (x 0 k) - nth k image 0) <= nearby (abs_diff 0 k)) /\
   norm1 image nearby <= delta /\
   delta == 5).
Proof.
  split; [exact nearby_feasible|].
  apply (l1_ball image 10 3 8 [] [] [] nearby).
  exact nearby_feasible.
Defined.

End adversarial_mnist_Props.

Module price_optimization_Props.

Import Avocado_Price_Allocation price_optimization Avocado_Props.

Lemma In_range (start stop z : Z) :
  In z (range start stop) <-> (start <= z < stop)%Z.
Proof.
  unfold range. rewrite in_map_iff. split.
  - intros (k & <- & Hk). apply in_seq in Hk. lia.
  - intros H. exists (Z.to_nat (z - start)). split; [lia|].
    apply in_seq. lia.
Qed.

(** X1. [peak_season] is 1 exactly on the months 2 to 7 and 0 on every
    other month: the upper end 8 of the range is not a peak month. *)
Theorem peak_season_months (month : Z) :
  (peak_season month = 1%Z <-> (2 <= month <= 7)%Z) /\
  (peak_season month = 0%Z <-> (month < 2 \/ 7 < month)%Z).
Proof.
  unfold peak_season, peak_months.
  destruct (existsb (Z.eqb month) (range 2 8)) eqn:E.
  - apply existsb_exists in E. destruct E as (z & Hz & Ez).
    apply Z.eqb_eq in Ez. subst z. apply In_range in Hz.
    split; split; intros; try lia; auto.
  - assert (N : ~ (2 <= month < 8)%Z).
    { intros H. apply In_range in H.
      assert (existsb (Z.eqb month) (range 2 8) = true)
        by (apply existsb_exists; exists month; split; auto;
            apply Z.eqb_refl).
      congruence. }
    split; split; intros; try lia; try discriminate; auto.
Qed.

(** The fixed features take their fixed values in every feasible
    solution. *)
Lemma feature_fixed (a : var -> Q) (i j : nat) :
  feasible var_eqb model a -> (i < 8)%nat -> (j < 10)%nat -> j <> 8%nat ->
  a (reg_features i j) == feature_value i j.
Proof.
  intros F Hi Hj Hne.
  assert (W : within (bounds_of var_eqb Bounds (reg_features i j))
                     (a (reg_features i j))).
  { apply (feasible_bounds var_eqb model a _ F).
    apply In_columns. auto. }
  revert W Hne. each_below i Hi. all: each_below j Hj.
  all: intros W Hne; try (exfalso; apply Hne; reflexivity).
  all: vm_compute in W; destruct W as [W1 W2].
  all: apply Qle_antisym; vm_compute; auto.
Qed.

(** X2. The written model is the notebook's model: its objective is the net
    revenue [(p * s).sum() - c_waste * w.sum() - (c_transport * x).sum()]
    with the transport costs looked up in the order of [regions], its
    supply row has right-hand side [B] and its prices range over
    [a_min, a_max]. *)
Theorem written_objective_is_net_revenue :
  exists transport,
    loc c_transport regions = Some transport /\
    map fst transport = regions /\
    (forall a, obj_value a Maximize == net_revenue (map snd transport) a) /\
    option_map rhs (find_row (R 0) Subject_To) = Some B /\
    Forall (fun i => bounds_of var_eqb Bounds (reg_features i 8)
                     = (Some a_min, Some a_max)) (seq 0 8).
Proof.
  eexists. split; [vm_compute; reflexivity|].
  split; [reflexivity|]. split; [|split; [reflexivity|]].
  - intros a. unfold obj_value, net_revenue.
    cbv [Maximize linear quadratic eval eval_quad fold_right fst snd total
         map seq combine c_waste].
    field.
  - repeat constructor.
Qed.

Lemma demand_is_prediction (a : var -> Q) (i : nat) :
  feasible var_eqb model a -> (i < 8)%nat ->
  a (demand i) == predict lin_reg (map a (feats_row i)).
Proof.
  intros F Hi. each_below i Hi.
  all: match goal with |- context [demand ?k] =>
    apply (holds_linreg_row lin_reg k);
    exact (feasible_row var_eqb model a (linreg k 0) _ F eq_refl) end.
Qed.

Lemma demand_at_price (a : var -> Q) (i : nat) :
  feasible var_eqb model a -> (i < 8)%nat ->
  a (demand i) == predicted_demand i (a (reg_features i 8)).
Proof.
  intros F Hi.
  assert (Fx : forall j, (j < 10)%nat -> j <> 8%nat ->
               a (reg_features i j) == feature_value i j)
    by (intros; apply feature_fixed; auto).
  pose proof (Fx 0%nat ltac:(lia) ltac:(lia)) as F0.
  pose proof (Fx 1%nat ltac:(lia) ltac:(lia)) as F1.
  pose proof (Fx 2%nat ltac:(lia) ltac:(lia)) as F2.
  pose proof (Fx 3%nat ltac:(lia) ltac:(lia)) as F3.
  pose proof (Fx 4%nat ltac:(lia) ltac:(lia)) as F4.
  pose proof (Fx 5%nat ltac:(lia) ltac:(lia)) as F5.
  pose proof (Fx 6%nat ltac:(lia) ltac:(lia)) as F6.
  pose proof (Fx 7%nat ltac:(lia) ltac:(lia)) as F7.
  pose proof (Fx 9%nat ltac:(lia) ltac:(lia)) as F9.
  clear Fx.
  pose proof (demand_is_prediction a i F Hi) as D.
  rewrite D. unfold predicted_demand, predict, feats_row.
  cbv [map seq dot lin_reg coef_ intercept_ Nat.eqb].
  lra.
Qed.

Lemma predicted_demand_slope (i : nat) (p q : Q) :
  predicted_demand i p - predicted_demand i q
  == - 2.203770104890248 * (p - q).
Proof.
  unfold predicted_demand, predict.
  cbv [map seq dot lin_reg coef_ intercept_ Nat.eqb].
  lra.
Qed.

(** X3. In every feasible solution the demand of a region is the
    regression's prediction at the region's own price, and that prediction
    falls by 2.203770104890248 for each unit of price. *)
Theorem demand_curve (a : var -> Q) (i : nat) :
  feasible var_eqb model a -> (i < 8)%nat ->
  a (demand i) == predicted_demand i (a (reg_features i 8)) /\
  forall p q,
    predicted_demand i p - predicted_demand i q
    == - 2.203770104890248 * (p - q).
Proof.
  intros F Hi. split.
  - apply demand_at_price; auto.
  - apply predicted_demand_slope.
Qed.

(** What the rows and bounds of one region say. *)
Lemma region_rows (a : var -> Q) (i : nat) :
  feasible var_eqb model a -> (i < 8)%nat ->
  a (s i) <= a (x i) /\
  a (s i) <= a (demand i) /\
  a (w i) == a (x i) - a (s i) /\
  0 <= a (s i) /\
  0 <= a (w i) /\
  0 <= a (reg_features i 8) <= 2.
Proof.
  intros F Hi. each_below i Hi.
  all: match goal with |- context [x ?k] =>
    pose proof (feasible_row var_eqb model a (R (1 + k)) _ F eq_refl) as H1;
    pose proof (feasible_row var_eqb model a (R (9 + k)) _ F eq_refl) as H2;
    pose proof (feasible_row var_eqb model a (R (17 + k)) _ F eq_refl) as H3;
    assert (Bs : within (bounds_of var_eqb Bounds (s k)) (a (s k)))
      by (apply (feasible_bounds var_eqb model a (s k) F);
          vm_compute; tauto);
    assert (Bw : within (bounds_of var_eqb Bounds (w k)) (a (w k)))
      by (apply (feasible_bounds var_eqb model a (w k) F);
          vm_compute; tauto);
    assert (Bp : within (bounds_of var_eqb Bounds (reg_features k 8))
                        (a (reg_features k 8)))
      by (apply (feasible_bounds var_eqb model a (reg_features k 8) F);
          vm_compute; tauto)
  end.
  all: cbv [holds eval fold_right lhs rel rhs fst snd] in H1, H2, H3.
  all: destruct Bs as [Bs _]; destruct Bw as [Bw _]; destruct Bp as [Bp Bp'].
  all: cbn in Bs, Bw, Bp, Bp'.
  all: repeat split; lra.
Qed.

Lemma supply_row (a : var -> Q) :
  feasible var_eqb model a -> total (map (fun i => a (x i)) (seq 0 8)) == 30.
Proof.
  intros F.
  pose proof (feasible_row var_eqb model a (R 0) _ F eq_refl) as H.
  cbv [holds eval fold_right lhs rel rhs fst snd] in H.
  cbv [total map seq fold_right]. lra.
Qed.

(** X4. In every feasible solution each region sells at most the smaller of
    its allocation and its predicted demand, the predicted demand is not
    negative, and what is sold and what is wasted add up to the supply:
    never more than 30 is sold in total. *)
Theorem sales_bounds (a : var -> Q) :
  feasible var_eqb model a ->
  (forall i, (i < 8)%nat ->
     a (s i) <= Qmin (a (x i)) (predicted_demand i (a (reg_features i 8))) /\
     0 <= predicted_demand i (a (reg_features i 8))) /\
  total (map (fun i => a (s i)) (seq 0 8))
    + total (map (fun i => a (w i)) (seq 0 8)) == B /\
  0 <= total (map (fun i => a (s i)) (seq 0 8)) <= B.
Proof.
  intros F.
  assert (Rr := fun i Hi => region_rows a i F Hi).
  split.
  - intros i Hi. destruct (Rr i Hi) as (H1 & H2 & _ & H4 & _).
    pose proof (demand_at_price a i F Hi) as D.
    rewrite <- D. split; [|lra].
    apply Q.min_glb; auto.
  - pose proof (supply_row a F) as S.
    pose proof (Rr 0%nat ltac:(lia)) as R0.
    pose proof (Rr 1%nat ltac:(lia)) as R1.
    pose proof (Rr 2%nat ltac:(lia)) as R2.
    pose proof (Rr 3%nat ltac:(lia)) as R3.
    pose proof (Rr 4%nat ltac:(lia)) as R4.
    pose proof (Rr 5%nat ltac:(lia)) as R5.
    pose proof (Rr 6%nat ltac:(lia)) as R6.
    pose proof (Rr 7%nat ltac:(lia)) as R7.
    cbv [total map seq fold_right B] in *.
    repeat split; lra.
Qed.

(** X5. No feasible price lets the predicted demand go negative: 2.2038
    times the price is at most the demand predicted at price 0, so that in
    region 3 the price stays below 1.86 and never reaches [a_max]. *)
Theorem price_cap (a : var -> Q) :
  feasible var_eqb model a ->
  (forall i, (i < 8)%nat ->
     2.203770104890248 * a (reg_features i 8) <= predicted_demand i 0) /\
  a (reg_features 3 8) < 1.86 /\
  1.86 < a_max.
Proof.
  intros F. split; [|split].
  - intros i Hi.
    destruct (region_rows a i F Hi) as (_ & H2 & _ & H4 & _).
    pose proof (demand_at_price a i F Hi) as D.
    pose proof (predicted_demand_slope i (a (reg_features i 8)) 0) as Sl.
    lra.
  - destruct (region_rows a 3%nat F ltac:(lia)) as (_ & H2 & _ & H4 & _).
    pose proof (demand_at_price a 3%nat F ltac:(lia)) as D.
    unfold predicted_demand, predict in D.
    cbv [map seq dot lin_reg coef_ intercept_ Nat.eqb] in D.
    assert (E0 : feature_value 3 0 == 0) by reflexivity.
    assert (E1 : feature_value 3 1 == 0) by reflexivity.
    assert (E2 : feature_value 3 2 == 1) by reflexivity.
    assert (E3 : feature_value 3 3 == 0) by reflexivity.
    assert (E4 : feature_value 3 4 == 0) by reflexivity.
    assert (E5 : feature_value 3 5 == 0) by reflexivity.
    assert (E6 : feature_value 3 6 == 0) by reflexivity.
    assert (E7 : feature_value 3 7 == 7) by reflexivity.
    assert (E9 : feature_value 3 9 == 1) by reflexivity.
    lra.
  - reflexivity.
Qed.

(** *** Selling more *)

Lemma sell_more_elsewhere (i : nat) (a : var -> Q) (v : var) :
  var_eqb v (s i) || var_eqb v (w i) = false -> sell_more i a v = a v.
Proof.
  intros H. apply orb_false_iff in H. destruct H as [H1 H2].
  destruct v; simpl in *; try reflexivity.
  - rewrite H1. reflexivity.
  - rewrite H2. reflexivity.
Qed.

Lemma eval_untouched (i : nat) (a : var -> Q) (e : LinExpr var) :
  existsb (fun t => var_eqb (snd t) (s i) || var_eqb (snd t) (w i)) e = false
  -> eval (sell_more i a) e = eval a e.
Proof.
  induction e as [|t e IH]; simpl; auto.
  intros H. apply orb_false_iff in H. destruct H as [H1 H2].
  rewrite IH by exact H2. rewrite sell_more_elsewhere by exact H1.
  reflexivity.
Qed.

Lemma holds_untouched (i : nat) (a : var -> Q) (c : Constr var) :
  touches i c = false -> holds a c -> holds (sell_more i a) c.
Proof.
  unfold touches, holds. intros T H.
  rewrite (eval_untouched i a (lhs c) T). exact H.
Qed.

Lemma no_bound_on_sales (k : nat) :
  bounds_of var_eqb Bounds (s k) = default_bounds /\
  bounds_of var_eqb Bounds (w k) = default_bounds.
Proof. split; reflexivity. Qed.

Lemma sell_more_feasible (a : var -> Q) (i : nat) :
  feasible var_eqb model a -> (i < 8)%nat ->
  a (s i) <= Qmin (a (x i)) (a (demand i)) ->
  feasible var_eqb model (sell_more i a).
Proof.
  intros F Hi Hlt.
  destruct (region_rows a i F Hi) as (H1 & H2 & H3 & H4 & H5 & _).
  pose proof (Q.le_min_l (a (x i)) (a (demand i))) as Ml.
  pose proof (Q.le_min_r (a (x i)) (a (demand i))) as Mr.
  destruct F as [Hc Hb]. split.
  - rewrite Forall_forall in Hc. apply Forall_forall. intros c Hin.
    destruct (touches i c) eqn:T.
    + assert (Hf : In c (filter (touches i) (constrs model)))
        by (apply filter_In; auto).
      clear Hin T Hc Hb. revert H1 H2 H3 H4 H5 Hlt Ml Mr Hf.
      each_below i Hi.
      all: intros H1 H2 H3 H4 H5 Hlt Ml Mr Hf.
      all: vm_compute in Hf.
      all: destruct Hf as [<-|[<-|[<-|[]]]].
      all: cbv [holds eval fold_right lhs rel rhs fst snd sell_more Nat.eqb].
      all: lra.
    + apply holds_untouched; auto.
  - rewrite Forall_forall in Hb. apply Forall_forall. intros v Hv.
    specialize (Hb v Hv). cbn [bounds model] in *.
    destruct v as [k|k|k|k|k l]; cbn [sell_more]; auto.
    + destruct (Nat.eqb k i) eqn:E; auto.
      rewrite (proj1 (no_bound_on_sales k)).
      unfold within, default_bounds. cbn [fst snd]. split; [lra | exact I].
    + destruct (Nat.eqb k i) eqn:E; auto.
      rewrite (proj2 (no_bound_on_sales k)).
      unfold within, default_bounds. cbn [fst snd]. split; [lra | exact I].
Qed.

Lemma sell_more_gain (a : var -> Q) (i : nat) :
  (i < 8)%nat ->
  a (w i) == a (x i) - a (s i) ->
  obj_value (sell_more i a) Maximize - obj_value a Maximize
  == (a (reg_features i 8) + c_waste)
     * (Qmin (a (x i)) (a (demand i)) - a (s i)).
Proof.
  intros Hi. each_below i Hi.
  all: intros H3; unfold obj_value.
  all: cbv [Maximize linear quadratic eval eval_quad fold_right fst snd
            sell_more Nat.eqb c_waste].
  all: match goal with
       | H : _ (w ?k) == _ |- context [Qmin ?u ?v] =>
           transitivity (a (reg_features k 8) * (Qmin u v - a (s k))
                         - 0.1 * ((a (x k) - Qmin u v) - a (w k)));
           [field | rewrite H; ring]
       end.
Qed.

(** X6. A feasible solution that sells less in some region than both its
    allocation and its predicted demand is never optimal: selling the
    smaller of the two there, and wasting the rest, is feasible again and
    earns strictly more.  So at an optimum each region sells exactly the
    smaller of its allocation and its demand. *)
Theorem unsold_demand_not_optimal (a : var -> Q) (i : nat) :
  feasible var_eqb model a -> (i < 8)%nat ->
  a (s i) < Qmin (a (x i)) (a (demand i)) ->
  feasible var_eqb model (sell_more i a) /\
  sell_more i a (s i) == Qmin (a (x i)) (a (demand i)) /\
  obj_value a Maximize < obj_value (sell_more i a) Maximize.
Proof.
  intros F Hi Hlt.
  destruct (region_rows a i F Hi) as (_ & _ & H3 & _ & _ & Hp & _).
  split; [|split].
  - apply sell_more_feasible; auto. lra.
  - cbn [sell_more]. rewrite Nat.eqb_refl. reflexivity.
  - pose proof (sell_more_gain a i Hi H3) as G.
    assert (P : 0 < (a (reg_features i 8) + c_waste)
                    * (Qmin (a (x i)) (a (demand i)) - a (s i))).
    { apply Qmult_lt_0_compat; unfold c_waste; lra. }
    lra.
Qed.

Lemma demand_curve_witness :
  feasible var_eqb model point /\ (3 < 8)%nat /\
  (point (demand 3) == predicted_demand 3 (point (reg_features 3 8)) /\
   forall p q,
     predicted_demand 3 p - predicted_demand 3 q
     == - 2.203770104890248 * (p - q)).
Proof.
  split; [exact point_feasible | split; [lia|]].
  apply (demand_curve point 3); [exact point_feasible | lia].
Defined.

Lemma sales_bounds_witness :
  feasible var_eqb model point /\
  ((forall i, (i < 8)%nat ->
      point (s i)
        <= Qmin (point (x i)) (predicted_demand i (point (reg_features i 8)))
      /\ 0 <= predicted_demand i (point (reg_features i 8))) /\
   total (map (fun i => point (s i)) (seq 0 8))
     + total (map (fun i => point (w i)) (seq 0 8)) == B /\
   0 <= total (map (fun i => point (s i)) (seq 0 8)) <= B).
Proof.
  split; [exact point_feasible | apply (sales_bounds point)].
  exact point_feasible.
Defined.

Lemma price_cap_witness :
  feasible var_eqb model point /\
  ((forall i, (i < 8)%nat ->
      2.203770104890248 * point (reg_features i 8) <= predicted_demand i 0) /\
   point (reg_features 3 8) < 1.86 /\
   1.86 < a_max).
Proof.
  split; [exact point_feasible | apply (price_cap point)].
  exact point_feasible.
Defined.

Lemma point_sells_little :
  point (s 3) < Qmin (point (x 3)) (point (demand 3)).
Proof. vm_compute. reflexivity. Qed.

Lemma unsold_demand_not_optimal_witness :
  feasible var_eqb model point /\ (3 < 8)%nat /\
  point (s 3) < Qmin (point (x 3)) (point (demand 3)) /\
  (feasible var_eqb model (sell_more 3 point) /\
   sell_more 3 point (s 3) == Qmin (point (x 3)) (point (demand 3)) /\
   obj_value point Maximize < obj_value (sell_more 3 point) Maximize).
Proof.
  split; [exact point_feasible | split; [lia|]].
  split; [exact point_sells_little|].
  apply (unsold_demand_not_optimal point 3);
    [exact point_feasible | lia | exact point_sells_little].
Defined.

End price_optimization_Props.

Module student_enrollment_Props.

Import student_enrollment.

Lemma inject_succ (k : nat) :
  inject_Z (Z.of_nat (S k)) == inject_Z (Z.of_nat k) + 1.
Proof.
  rewrite Stdlib.ZArith.Znat.Nat2Z.inj_succ. unfold Z.succ. rewrite inject_Z_plus. reflexivity.
Qed.

Lemma bounds_of_merit (rest : list (BoundDecl var)) (i n k : nat) :
  (i <= k < i + n)%nat ->
  bounds_of var_eqb (map (fun j => Range 0.0 (merit j) 2.5) (seq i n) ++ rest)
            (merit k)
  = (Some 0.0, Some 2.5).
Proof.
  revert i. induction n as [|n IH]; intros i H; [lia|].
  unfold bounds_of in *. simpl.
  destruct (Nat.eqb i k) eqn:E.
  - reflexivity.
  - apply Nat.eqb_neq in E. apply IH. lia.
Qed.

(** Each student counted for a full scholarship takes 2.5 of the sum. *)
Lemma full_count_le (a : var -> Q) (ks : list nat) :
  (forall k, In k ks -> 0 <= a (merit k)) ->
  2.5 * inject_Z (Z.of_nat
          (length (filter (fun i => Qle_bool 2.5 (a (merit i))) ks)))
  <= eval a (map (fun i => (1, merit i)) ks).
Proof.
  unfold eval.
  induction ks as [|k ks IH]; intros H; cbn [map fold_right filter fst snd].
  - cbn [length]. change (inject_Z (Z.of_nat 0)) with 0. lra.
  - assert (IH' := IH (fun j Hj => H j (or_intror Hj))).
    pose proof (H k (or_introl eq_refl)) as Hk.
    destruct (Qle_bool 2.5 (a (merit k))) eqn:E.
    + apply Qle_bool_iff in E. cbn [length]. rewrite inject_succ. lra.
    + lra.
Qed.

(** X7. In the enrollment model every feasible solution offers each student
    between 0 and 2.5, at most [0.2 * nstudents] in total, and therefore
    the largest scholarship to at most 8 students in 100, whatever rows the
    regression adds. *)
Theorem scholarship_budget (nstudents : nat) (pred_vars : list var)
    (pred_bounds : list (BoundDecl var)) (pred_rows : list (Constr var))
    (a : var -> Q) :
  feasible var_eqb (model nstudents pred_vars pred_bounds pred_rows) a ->
  (forall i, (i < nstudents)%nat -> 0 <= a (merit i) <= 2.5) /\
  eval a (map (fun i => (1, merit i)) (students nstudents))
    <= 0.2 * inject_Z (Z.of_nat nstudents) /\
  inject_Z (Z.of_nat (length (full_scholarships nstudents a)))
    <= 0.08 * inject_Z (Z.of_nat nstudents).
Proof.
  intros [Hc Hb]. unfold model in Hc, Hb. cbn [constrs vars bounds] in Hc, Hb.
  assert (Bd : forall i, (i < nstudents)%nat -> 0 <= a (merit i) <= 2.5).
  { intros i Hi.
    apply Forall_app in Hb. destruct Hb as [_ Hb].
    apply Forall_app in Hb. destruct Hb as [Hm _].
    rewrite Forall_forall in Hm.
    assert (Hin : In (merit i) (map merit (students nstudents)))
      by (apply in_map, in_seq; lia).
    apply Hm in Hin. unfold students in Hin.
    rewrite bounds_of_merit in Hin by lia.
    unfold within in Hin. cbn [fst snd] in Hin.
    destruct Hin as [L U]. split; lra. }
  inversion Hc as [|c cs Hbud _]; subst.
  cbv [holds lhs rel rhs budget] in Hbud.
  split; [exact Bd|]. split; [exact Hbud|].
  pose proof (full_count_le a (students nstudents)) as Hcount.
  unfold full_scholarships.
  assert (Hnn : forall k, In k (students nstudents) -> 0 <= a (merit k)).
  { intros k Hk. apply in_seq in Hk. apply Bd. lia. }
  specialize (Hcount Hnn). lra.
Qed.

Lemma twenty_feasible : feasible var_eqb (model 250 [] [] []) twenty.
Proof. apply feasibleb_iff. vm_compute. reflexivity. Qed.

Lemma scholarship_budget_witness :
  feasible var_eqb (model 250 [] [] []) twenty /\
  ((forall i, (i < 250)%nat -> 0 <= twenty (merit i) <= 2.5) /\
   eval twenty (map (fun i => (1, merit i)) (students 250))
     <= 0.2 * inject_Z (Z.of_nat 250) /\
   inject_Z (Z.of_nat (length (full_scholarships 250 twenty)))
     <= 0.08 * inject_Z (Z.of_nat 250)).
Proof.
  split; [exact twenty_feasible|].
  apply (scholarship_budget 250 [] [] [] twenty). exact twenty_feasible.
Defined.

End student_enrollment_Props.

Module adversarial_mnist_labels_Props.

Import adversarial_mnist adversarial_mnist_labels.

(** X8. When [sorted_labels] is an argsort of a row of at least two
    probabilities, [right_label] and [wrong_label] are two different labels
    of the row, the first with the largest probability and the second with
    the largest among the others; on a row of fewer than two labels taking
    [sorted_labels[-2]] raises. *)
Theorem labels_chosen (prob : list Q) (sorted_labels : list nat) :
  is_argsort prob sorted_labels ->
  ((2 <= length prob)%nat ->
   exists r w,
     right_label sorted_labels = Some r /\
     wrong_label sorted_labels = Some w /\
     r <> w /\ (r < length prob)%nat /\ (w < length prob)%nat /\
     (forall k, (k < length prob)%nat -> nth k prob 0 <= nth r prob 0) /\
     (forall k, (k < length prob)%nat -> k <> r ->
                nth k prob 0 <= nth w prob 0)) /\
  ((length prob < 2)%nat -> wrong_label sorted_labels = None).
Proof.
  intros [P Ord].
  assert (L : length sorted_labels = length prob)
    by (rewrite (Permutation_length P); apply length_seq).
  assert (ND : NoDup sorted_labels)
    by (apply (Permutation_NoDup (Permutation_sym P)), seq_NoDup).
  assert (Mem : forall k, In k sorted_labels <-> (k < length prob)%nat).
  { intros k. split; intros H.
    - apply (Permutation_in _ P) in H. apply in_seq in H. lia.
    - apply (Permutation_in _ (Permutation_sym P)). apply in_seq. lia. }
  split.
  - intros Hn. set (n := length prob) in *.
    exists (nth (n - 1) sorted_labels 0%nat), (nth (n - 2) sorted_labels 0%nat).
    unfold right_label, wrong_label, from_end. rewrite L.
    replace (1 <=? n)%nat with true by (symmetry; apply Nat.leb_le; lia).
    replace (2 <=? n)%nat with true by (symmetry; apply Nat.leb_le; lia).
    split; [apply nth_error_nth'; lia|].
    split; [apply nth_error_nth'; lia|].
    split; [|split; [|split; [|split]]].
    + intros E. rewrite NoDup_nth in ND.
      apply ND in E; lia.
    + apply Mem, nth_In. lia.
    + apply Mem, nth_In. lia.
    + intros k Hk. apply Mem in Hk.
      apply (In_nth _ _ 0%nat) in Hk. destruct Hk as (i & Hi & <-).
      destruct (Nat.eq_dec i (n - 1)) as [->|Hne]; [apply Qle_refl|].
      apply Ord. lia.
    + intros k Hk Hkr. apply Mem in Hk.
      apply (In_nth _ _ 0%nat) in Hk. destruct Hk as (i & Hi & <-).
      destruct (Nat.eq_dec i (n - 1)) as [->|Hne]; [congruence|].
      destruct (Nat.eq_dec i (n - 2)) as [->|Hne2]; [apply Qle_refl|].
      apply Ord. lia.
  - intros Hn. unfold wrong_label, from_end. rewrite L.
    replace (2 <=? length prob)%nat with false; auto.
    symmetry. apply Nat.leb_gt. lia.
Qed.

Lemma three_sorted_argsort : is_argsort three_probs three_sorted.
Proof.
  split.
  - simpl. apply perm_skip, perm_swap.
  - simpl. intros i j Hij.
    destruct i as [|[|[|i]]]; destruct j as [|[|[|j]]]; try lia;
      simpl; lra.
Qed.

Lemma labels_chosen_witness :
  is_argsort three_probs three_sorted /\
  (((2 <= length three_probs)%nat ->
    exists r w,
      right_label three_sorted = Some r /\
      wrong_label three_sorted = Some w /\
      r <> w /\ (r < length three_probs)%nat /\
      (w < length three_probs)%nat /\
      (forall k, (k < length three_probs)%nat ->
                 nth k three_probs 0 <= nth r three_probs 0) /\
      (forall k, (k < length three_probs)%nat -> k <> r ->
                 nth k three_probs 0 <= nth w three_probs 0)) /\
   ((length three_probs < 2)%nat -> wrong_label three_sorted = None)).
Proof.
  split; [exact three_sorted_argsort|].
  apply (labels_chosen _ _ three_sorted_argsort).
Defined.

Section Ball_complete.

Variable example : list Q.
Variable n_labels : nat.
Variables wl rl : nat.
Variables xv yv : nat -> Q.

Lemma bounds_of_skip (l1 l2 : list (BoundDecl var)) (v : var) :
  (forall b, In b l1 -> var_eqb (bound_var b) v = false) ->
  bounds_of var_eqb (l1 ++ l2) v = bounds_of var_eqb l2 v.
Proof.
  intros H. unfold bounds_of. induction l1 as [|b l1 IH]; simpl; auto.
  rewrite (H b (or_introl eq_refl)). apply IH.
  intros b' Hb'. apply H. right. exact Hb'.
Qed.

Lemma bounds_of_label (rest : list (BoundDecl var)) (i n k : nat) :
  (i <= k < i + n)%nat ->
  bounds_of var_eqb (map (fun j => Free (y 0 j)) (seq i n) ++ rest) (y 0 k)
  = (None, None).
Proof.
  revert i. induction n as [|n IH]; intros i H; [lia|].
  unfold bounds_of in *. simpl.
  destruct (Nat.eqb i k) eqn:E.
  - reflexivity.
  - apply Nat.eqb_neq in E. apply IH. lia.
Qed.

Lemma bounds_of_abs_diff (rest : list (BoundDecl var)) (i n k : nat) :
  (i <= k < i + n)%nat ->
  bounds_of var_eqb (map (fun j => Range 0 (abs_diff 0 j) 1) (seq i n) ++ rest)
            (abs_diff 0 k)
  = (Some 0, Some 1).
Proof.
  revert i. induction n as [|n IH]; intros i H; [lia|].
  unfold bounds_of in *. simpl.
  destruct (Nat.eqb i k) eqn:E.
  - reflexivity.
  - apply Nat.eqb_neq in E. apply IH. lia.
Qed.

Lemma eval_abs_diff (ks : list nat) :
  eval (ball_point example xv yv) (map (fun k => (1, abs_diff 0 k)) ks)
  == fold_right Qplus 0
       (map (fun k => Qabs (xv k - nth k example 0)) ks).
Proof.
  unfold eval. induction ks as [|k ks IH]; cbn [map fold_right fst snd].
  - reflexivity.
  - rewrite IH. cbn [ball_point]. ring.
Qed.

(** X9. The distance rows cut nothing off the ball: when the example's
    pixels lie in [0, 1], every image with pixels in [0, 1] and L1 distance
    at most delta from the example is a feasible point of the model without
    the network's rows, with [abs_diff] set to the pixel distances.  The
    upper bound 1 of [abs_diff] excludes no such image, and the example
    itself is feasible. *)
Theorem ball_is_feasible :
  (forall k, (k < length example)%nat -> 0 <= nth k example 0 <= 1) ->
  (forall k, (k < length example)%nat -> 0 <= xv k <= 1) ->
  norm1 example (ball_point example xv yv) <= delta ->
  feasible var_eqb (model example n_labels wl rl [] [] [])
           (ball_point example xv yv).
Proof.
  intros He Hx Hd. split.
  - unfold model. cbn [constrs].
    apply Forall_app. split; [|apply Forall_app; split].
    + apply Forall_forall. intros c Hc. apply in_map_iff in Hc.
      destruct Hc as (k & <- & Hk).
      cbv [holds above eval fold_right lhs rel rhs fst snd ball_point].
      pose proof (Qle_Qabs (xv k - nth k example 0)). lra.
    + apply Forall_forall. intros c Hc. apply in_map_iff in Hc.
      destruct Hc as (k & <- & Hk).
      cbv [holds below eval fold_right lhs rel rhs fst snd ball_point].
      pose proof (Qle_Qabs (- (xv k - nth k example 0))) as H.
      rewrite Qabs_opp in H. lra.
    + rewrite app_nil_r. constructor; [|constructor].
      cbv [holds budget lhs rel rhs]. rewrite eval_abs_diff. exact Hd.
  - unfold model. cbn [vars bounds]. rewrite !app_nil_r.
    apply Forall_app. split; [|apply Forall_app; split].
    + apply Forall_forall. intros v Hv. apply in_map_iff in Hv.
      destruct Hv as (k & <- & Hk). apply in_seq in Hk.
      unfold pixels. rewrite adversarial_mnist_Props.bounds_of_pixel by lia.
      unfold within. cbn [fst snd ball_point]. apply Hx. lia.
    + apply Forall_forall. intros v Hv. apply in_map_iff in Hv.
      destruct Hv as (k & <- & Hk). apply in_seq in Hk.
      rewrite bounds_of_skip.
      * rewrite bounds_of_label by lia. unfold within. cbn. tauto.
      * intros b Hb. apply in_map_iff in Hb. destruct Hb as (j & <- & _).
        reflexivity.
    + apply Forall_forall. intros v Hv. apply in_map_iff in Hv.
      destruct Hv as (k & <- & Hk). apply in_seq in Hk.
      rewrite bounds_of_skip.
      * rewrite bounds_of_skip.
        -- unfold pixels.
           rewrite <- (app_nil_r (map _ (seq 0 (length example)))).
           rewrite bounds_of_abs_diff by lia.
           unfold within. cbn [fst snd ball_point].
           split; [apply Qabs_nonneg|].
           apply Qabs_Qle_condition.
           pose proof (He k ltac:(lia)). pose proof (Hx k ltac:(lia)).
           split; lra.
        -- intros b Hb. apply in_map_iff in Hb. destruct Hb as (j & <- & _).
           reflexivity.
      * intros b Hb. apply in_map_iff in Hb. destruct Hb as (j & <- & _).
        reflexivity.
Qed.

End Ball_complete.

Lemma image_pixels (k : nat) :
  (k < length image)%nat -> 0 <= nth k image 0 <= 1.
Proof.
  intros Hk.
  assert (H : forallb (fun j => Qle_bool 0 (nth j image 0)
                                && Qle_bool (nth j image 0) 1)
                      (seq 0 (length image)) = true)
    by (vm_compute; reflexivity).
  rewrite forallb_forall in H.
  specialize (H k ltac:(apply in_seq; lia)).
  apply andb_true_iff in H. rewrite !Qle_bool_iff in H. exact H.
Qed.

Lemma shifted_pixels (k : nat) :
  (k < length image)%nat -> 0 <= shifted k <= 1.
Proof.
  intros Hk.
  assert (H : forallb (fun j => Qle_bool 0 (shifted j)
                                && Qle_bool (shifted j) 1)
                      (seq 0 (length image)) = true)
    by (vm_compute; reflexivity).
  rewrite forallb_forall in H.
  specialize (H k ltac:(apply in_seq; lia)).
  apply andb_true_iff in H. rewrite !Qle_bool_iff in H. exact H.
Qed.

Lemma shifted_near :
  norm1 image (ball_point image shifted (fun _ => 0)) <= delta.
Proof. apply Qle_bool_iff. vm_compute. reflexivity. Qed.

Lemma ball_is_feasible_witness :
  (forall k, (k < length image)%nat -> 0 <= nth k image 0 <= 1) /\
  (forall k, (k < length image)%nat -> 0 <= shifted k <= 1) /\
  norm1 image (ball_point image shifted (fun _ => 0)) <= delta /\
  feasible var_eqb (model image 10 3 8 [] [] [])
           (ball_point image shifted (fun _ => 0)).
Proof.
  split; [exact image_pixels|]. split; [exact shifted_pixels|].
  split; [exact shifted_near|].
  apply (ball_is_feasible image 10 3 8 shifted (fun _ => 0));
    [exact image_pixels | exact shifted_pixels | exact shifted_near].
Defined.

End adversarial_mnist_labels_Props.

(** ** Properties of the translation *)


Module gurobi_ml_Props.

Section On_variables.

Variable V : Type.
Variable V_eqb : V -> V -> bool.
Variable mvar : gurobi_ml.Part -> nat -> nat -> V.

(** A matrix of variables needs no pinning. *)
Lemma pin_row_vars (part : gurobi_ml.Part) (i j : nat) (row : list V) :
  exists a,
    gurobi_ml.pin_row mvar part i j (map (@gurobi_ml.Var V) row)
    = Some (row, a) /\
    gurobi_ml.new_vars a = [] /\ gurobi_ml.new_bounds a = [] /\
    gurobi_ml.new_rows a = [].
Proof.
  revert j. induction row as [|v row IH]; intros j; simpl.
  - exists gurobi_ml.nothing. auto.
  - destruct (IH (S j)) as (a & -> & Hv & Hb & Hr).
    eexists. split; [reflexivity|].
    unfold gurobi_ml.plus.
    cbn [gurobi_ml.new_vars gurobi_ml.new_bounds gurobi_ml.new_rows
         gurobi_ml.nothing].
    rewrite Hv, Hb, Hr. auto.
Qed.

Lemma pin_vars (part : gurobi_ml.Part) (i : nat) (rows : list (list V)) :
  exists a,
    gurobi_ml.pin mvar part i (map (map (@gurobi_ml.Var V)) rows)
    = Some (rows, a) /\
    gurobi_ml.new_vars a = [] /\ gurobi_ml.new_bounds a = [] /\
    gurobi_ml.new_rows a = [].
Proof.
  revert i. induction rows as [|row rows IH]; intros i; simpl.
  - exists gurobi_ml.nothing. auto.
  - destruct (pin_row_vars part i 0 row) as (b & -> & Hv' & Hb' & Hr').
    destruct (IH (S i)) as (a & -> & Hv & Hb & Hr).
    eexists. split; [reflexivity|].
    unfold gurobi_ml.plus.
    cbn [gurobi_ml.new_vars gurobi_ml.new_bounds gurobi_ml.new_rows].
    rewrite Hv, Hb, Hr, Hv', Hb', Hr'. auto.
Qed.

(** On a bare regression, a matrix of variables and supplied outputs, the
    general translation is the one the written model shows: it succeeds in
    the same cases, leaves the same model and reports the same counts. *)
Lemma regression_on_variables (p : LinearRegression) (rows : list (list V))
    (outs : list V) (st : World V) :
  option_map snd
    (gurobi_ml.add_predictor_constr V_eqb mvar (gurobi_ml.Regression p)
       (map (map (@gurobi_ml.Var V)) rows) (Some outs) st)
  = option_map snd (add_predictor_constr p rows outs st) /\
  option_map (fun r => gurobi_ml.counts (fst r))
    (gurobi_ml.add_predictor_constr V_eqb mvar (gurobi_ml.Regression p)
       (map (map (@gurobi_ml.Var V)) rows) (Some outs) st)
  = option_map (fun r => stats (fst r))
      (add_predictor_constr p rows outs st).
Proof.
  unfold gurobi_ml.add_predictor_constr, add_predictor_constr,
    gurobi_ml.translate, gurobi_ml.regression, shapes_agree.
  destruct (pin_vars gurobi_ml.regression_input 0 rows)
    as (a & -> & Hv & Hb & Hr).
  rewrite (Nat.eqb_sym (length rows) (length outs)).
  destruct (forallb _ rows); [|rewrite andb_false_r; auto].
  rewrite andb_true_r.
  destruct (Nat.eqb (length outs) (length rows)); [|auto].
  unfold gurobi_ml.plus, gurobi_ml.counts, stats.
  cbn [gurobi_ml.new_vars gurobi_ml.new_bounds gurobi_ml.new_rows].
  rewrite Hv, Hb, Hr.
  cbn [app gurobi_ml.fresh gurobi_ml.distinct forallb andb].
  cbn [option_map fst snd]. rewrite !app_nil_r. auto.
Qed.

(** Where the translation of the written model succeeds, so does the
    general one, with the same rows and model and nothing created. *)
Lemma regression_on_variables_returns (p : LinearRegression)
    (rows : list (list V)) (outs : list V) (st st' : World V)
    (pc : PredConstr V) :
  add_predictor_constr p rows outs st = Some (pc, st') ->
  gurobi_ml.add_predictor_constr V_eqb mvar (gurobi_ml.Regression p)
    (map (map (@gurobi_ml.Var V)) rows) (Some outs) st
  = Some ({| gurobi_ml.predictor := gurobi_ml.Regression p;
             gurobi_ml.input := map (map (@gurobi_ml.Var V)) rows;
             gurobi_ml.regression_rows := rows;
             gurobi_ml.output := outs;
             gurobi_ml.added_vars := [];
             gurobi_ml.added_bounds := [];
             gurobi_ml.added_constrs := added_constrs pc |}, st').
Proof.
  unfold gurobi_ml.add_predictor_constr, add_predictor_constr,
    gurobi_ml.translate, gurobi_ml.regression, shapes_agree.
  destruct (pin_vars gurobi_ml.regression_input 0 rows)
    as (a & -> & Hv & Hb & Hr).
  rewrite (Nat.eqb_sym (length rows) (length outs)).
  destruct (forallb _ rows); [|rewrite andb_false_r; discriminate].
  rewrite andb_true_r.
  destruct (Nat.eqb (length outs) (length rows)); [|discriminate].
  intros H. inversion H; subst. clear H.
  unfold gurobi_ml.plus.
  cbn [gurobi_ml.new_vars gurobi_ml.new_bounds gurobi_ml.new_rows
       added_constrs].
  rewrite Hv, Hb, Hr.
  cbn [app gurobi_ml.fresh gurobi_ml.distinct forallb andb].
  rewrite !app_nil_r. reflexivity.
Qed.

End On_variables.

Import gurobi_ml.

Section Translation_facts.

Variable V : Type.
Variable V_eqb : V -> V -> bool.
Variable mvar : Part -> nat -> nat -> V.

Hypothesis V_eqb_eq : forall u v, V_eqb u v = true <-> u = v.

(** *** Fresh names *)




(** *** Bounds of the columns already there *)


Lemma covers_nothing : covers (@nothing V).
Proof. intros b []. Qed.

Lemma covers_plus (a b : Added V) : covers a -> covers b -> covers (plus a b).
Proof.
  intros Ha Hb d Hd. unfold plus in *. cbn [new_bounds new_vars] in *.
  apply in_app_iff in Hd. apply in_app_iff.
  destruct Hd as [Hd|Hd]; [left; apply Ha | right; apply Hb]; exact Hd.
Qed.

Lemma covers_free (vs : list V) : covers (free vs).
Proof.
  intros d Hd. unfold free in *. cbn [new_bounds new_vars] in *.
  apply in_map_iff in Hd. destruct Hd as (v & <- & Hv). exact Hv.
Qed.

Lemma covers_rows (rows : list (Constr V)) :
  covers {| new_vars := []; new_bounds := []; new_rows := rows |}.
Proof. intros d []. Qed.

Lemma pin_row_covers (part : Part) (i j : nat) (row : list (Cell V))
    (vs : list V) (a : Added V) :
  pin_row mvar part i j row = Some (vs, a) ->
  covers a /\ new_rows a = [] /\ length vs = length row.
Proof.
  revert j vs a. induction row as [|c row IH]; intros j vs a H; simpl in H.
  - inversion H; subst. repeat split; auto. apply covers_nothing.
  - destruct (pin_cell mvar part i j c) as [[v b]|] eqn:Ec; [|discriminate].
    destruct (pin_row mvar part i (S j) row) as [[vs' b']|] eqn:Er;
      [|discriminate].
    inversion H; subst. destruct (IH _ _ _ Er) as (C & Rw & L).
    assert (Cb : covers b /\ new_rows b = []).
    { destruct c; simpl in Ec; inversion Ec; subst.
      - split; auto. intros d [<-|[]]. simpl. auto.
      - split; auto. apply covers_nothing. }
    destruct Cb as [Cb Rb]. repeat split.
    + apply covers_plus; auto.
    + unfold plus. cbn [new_rows]. rewrite Rb, Rw. reflexivity.
    + simpl. auto.
Qed.

Lemma pin_covers (part : Part) (i : nat) (cells : list (list (Cell V)))
    (rows : list (list V)) (a : Added V) :
  pin mvar part i cells = Some (rows, a) ->
  covers a /\ new_rows a = [] /\ length rows = length cells.
Proof.
  revert i rows a. induction cells as [|row cells IH]; intros i rows a H;
    simpl in H.
  - inversion H; subst. repeat split; auto. apply covers_nothing.
  - destruct (pin_row mvar part i 0 row) as [[vs b]|] eqn:Er; [|discriminate].
    destruct (pin mvar part (S i) cells) as [[rows' b']|] eqn:Ep;
      [|discriminate].
    inversion H; subst.
    destruct (pin_row_covers _ _ _ _ _ _ Er) as (Cb & Rb & _).
    destruct (IH _ _ _ Ep) as (C & Rw & L).
    repeat split.
    + apply covers_plus; auto.
    + unfold plus. cbn [new_rows]. rewrite Rb, Rw. reflexivity.
    + simpl. auto.
Qed.

Lemma traverse_length {A B : Type} (f : A -> option B) (l : list A)
    (r : list B) :
  traverse f l = Some r -> length r = length l.
Proof.
  revert r. induction l as [|u l IH]; intros r H; simpl in H.
  - inversion H. reflexivity.
  - destruct (f u); [|discriminate].
    destruct (traverse f l); [|discriminate].
    inversion H; subst. simpl. f_equal. apply IH. reflexivity.
Qed.

Lemma scaler_row_names (i j : nat) (mean scale : list Q) (ins outs : list V) :
  Forall (fun c => is_linreg (name c) = false)
         (scaler_row i j mean scale ins outs).
Proof.
  revert j scale ins outs.
  induction mean as [|mu mean IH]; intros j [|sc scale] [|u ins] [|o outs];
    simpl; constructor; auto.
Qed.

Lemma scaler_rows_names (i : nat) (mean scale : list Q)
    (ins outs : list (list V)) :
  Forall (fun c => is_linreg (name c) = false)
         (scaler_rows i mean scale ins outs).
Proof.
  revert i outs. induction ins as [|u ins IH]; intros i [|o outs]; simpl;
    try constructor.
  apply Forall_app. split; [apply scaler_row_names | apply IH].
Qed.

(** A step of the column transformer keeps the number of rows, declares
    bounds on created variables only, and adds no regression row. *)
Lemma scaler_ok (mean scale : list Q) (cells block : list (list (Cell V)))
    (a : Added V) :
  scaler mvar mean scale cells = Some (block, a) ->
  length block = length cells /\ covers a /\
  Forall (fun c => is_linreg (name c) = false) (new_rows a).
Proof.
  unfold scaler. destruct (forallb (forallb is_number) cells).
  - destruct (traverse (scale_row mean scale) cells) as [r|] eqn:E;
      [|discriminate].
    intros H. inversion H; subst. split; [|split].
    + eapply traverse_length; eauto.
    + apply covers_nothing.
    + constructor.
  - destruct (pin mvar scaler_input 0 cells) as [[ins b]|] eqn:E;
      [|discriminate].
    destruct (_ && _); [|discriminate].
    intros H. inversion H; subst.
    destruct (pin_covers _ _ _ _ _ E) as (C & Rw & L).
    split; [|split].
    + unfold matrix. rewrite !length_map, length_seq. exact L.
    + apply covers_plus; auto. apply covers_plus.
      * apply covers_free.
      * apply covers_rows.
    + unfold plus, free. cbn [new_rows]. rewrite Rw. simpl.
      apply scaler_rows_names.
Qed.

Lemma transform_ok (t : Transformer) (cells block : list (list (Cell V)))
    (a : Added V) :
  transform mvar t cells = Some (block, a) ->
  length block = length cells /\ covers a /\
  Forall (fun c => is_linreg (name c) = false) (new_rows a).
Proof.
  destruct t as [cats|mean scale|]; simpl.
  - destruct (traverse (one_hot_row cats) cells) as [r|] eqn:E;
      [|discriminate].
    intros H. inversion H; subst. split; [|split].
    + eapply traverse_length; eauto.
    + apply covers_nothing.
    + constructor.
  - apply scaler_ok.
  - intros H. inversion H; subst. split; [reflexivity|split].
    + apply covers_nothing.
    + constructor.
Qed.

Lemma column_transform_ok (ct : ColumnTransformer)
    (cells cells' : list (list (Cell V))) (a : Added V) :
  column_transform mvar ct cells = Some (cells', a) ->
  length cells' = length cells /\ covers a /\
  Forall (fun c => is_linreg (name c) = false) (new_rows a).
Proof.
  revert cells' a. induction ct as [|[t cols] ct IH]; intros cells' a H;
    simpl in H.
  - inversion H; subst. split; [|split].
    + apply length_map.
    + apply covers_nothing.
    + constructor.
  - destruct (traverse (columns_at cols) cells) as [sel|] eqn:Es;
      [|discriminate].
    destruct (transform mvar t sel) as [[block b]|] eqn:Et; [|discriminate].
    destruct (column_transform mvar ct cells) as [[rest b']|] eqn:Ec;
      [|discriminate].
    inversion H; subst.
    destruct (transform_ok _ _ _ _ Et) as (L1 & C1 & N1).
    destruct (IH _ _ eq_refl) as (L2 & C2 & N2).
    apply traverse_length in Es.
    split; [|split].
    + unfold hstack. rewrite length_map, length_combine. lia.
    + apply covers_plus; auto.
    + unfold plus. cbn [new_rows]. apply Forall_app. auto.
Qed.

(** What the regression step returns. *)
Lemma regression_ok (p : LinearRegression) (cells : list (list (Cell V)))
    (outs : option (list V)) (rows : list (list V)) (o : list V)
    (a : Added V) :
  regression mvar p cells outs = Some (rows, o, a) ->
  length rows = length cells /\
  length o = length cells /\
  Forall (fun r => length r = length (coef_ p)) rows /\
  covers a /\
  new_rows a = linreg_rows p 0 rows o /\
  match outs with
  | Some given => o = given
  | None =>
      o = map (fun i => mvar regression_output i 0) (seq 0 (length cells)) /\
      incl o (new_vars a)
  end.
Proof.
  unfold regression.
  destruct (pin mvar regression_input 0 cells) as [[rs b]|] eqn:E;
    [|discriminate].
  destruct (pin_covers _ _ _ _ _ E) as (C & Rw & L).
  destruct (forallb _ rs) eqn:F; [|discriminate].
  assert (W : Forall (fun r => length r = length (coef_ p)) rs).
  { apply Forall_forall. intros r Hr. rewrite forallb_forall in F.
    apply Nat.eqb_eq. auto. }
  destruct outs as [given|].
  - destruct (Nat.eqb (length given) (length rs)) eqn:G; [|discriminate].
    apply Nat.eqb_eq in G. intros H. inversion H; subst.
    split; [exact L|]. split; [lia|]. split; [exact W|].
    split; [apply covers_plus; auto; apply covers_rows|].
    split; [|reflexivity].
    unfold plus. cbn [new_rows]. rewrite Rw. reflexivity.
  - intros H. inversion H; subst.
    split; [exact L|].
    split; [rewrite length_map, length_seq; exact L|].
    split; [exact W|].
    split.
    { apply covers_plus; auto. apply covers_plus.
      - apply covers_free.
      - apply covers_rows. }
    split.
    { unfold plus, free. cbn [new_rows]. rewrite Rw. reflexivity. }
    split; [rewrite L; reflexivity|].
    unfold plus, free. cbn [new_vars]. intros v Hv.
    apply in_app_iff. right. apply in_app_iff. left. exact Hv.
Qed.

Lemma translate_ok (p : Predictor) (cells : list (list (Cell V)))
    (outs : option (list V)) (rows : list (list V)) (o : list V)
    (a : Added V) :
  translate mvar p cells outs = Some (rows, o, a) ->
  length rows = length cells /\
  length o = length cells /\
  covers a /\
  filter (fun c => is_linreg (name c)) (new_rows a)
    = linreg_rows
        match p with Regression r | Pipeline _ r => r end 0 rows o /\
  (forall r, p = Regression r -> new_rows a = linreg_rows r 0 rows o) /\
  Forall (fun r => length r =
            length (coef_ match p with Regression r | Pipeline _ r => r end))
         rows /\
  match outs with
  | Some given => o = given
  | None =>
      o = map (fun i => mvar regression_output i 0) (seq 0 (length cells)) /\
      incl o (new_vars a)
  end.
Proof.
  assert (Lin : forall r rs os,
            filter (fun c : Constr V => is_linreg (name c))
                   (linreg_rows r 0 rs os) = linreg_rows r 0 rs os).
  { intros r rs. generalize 0%nat.
    induction rs as [|x rs IH]; intros k [|y os]; simpl; auto.
    f_equal. apply IH. }
  destruct p as [r|ct r]; simpl.
  - intros H. destruct (regression_ok _ _ _ _ _ _ H)
      as (L1 & L2 & W & C & Rw & O).
    split; [exact L1|]. split; [exact L2|]. split; [exact C|].
    split; [rewrite Rw; apply Lin|].
    split; [intros r' E; inversion E; subst; exact Rw|].
    split; [exact W | exact O].
  - destruct (column_transform mvar ct cells) as [[cells' b]|] eqn:Ec;
      [|discriminate].
    destruct (regression mvar r cells' outs) as [[[rs os] b']|] eqn:Er;
      [|discriminate].
    intros H. inversion H; subst.
    destruct (column_transform_ok _ _ _ _ Ec) as (Lc & Cc & Nc).
    destruct (regression_ok _ _ _ _ _ _ Er) as (L1 & L2 & W & C & Rw & O).
    split; [lia|]. split; [lia|].
    split; [apply covers_plus; auto|].
    split.
    { unfold plus. cbn [new_rows]. rewrite filter_app, Rw, Lin.
      replace (filter (fun c : Constr V => is_linreg (name c)) (new_rows b))
        with (@nil (Constr V)); auto.
      symmetry. clear - Nc. induction Nc as [|c l Hc _ IH]; simpl; auto.
      rewrite Hc. exact IH. }
    split; [intros r' E; discriminate|].
    split; [exact W|].
    destruct outs as [given|]; [exact O|].
    destruct O as [O1 O2]. split; [rewrite <- Lc; exact O1|].
    unfold plus. cbn [new_vars]. intros v Hv.
    apply in_app_iff. right. apply O2. exact Hv.
Qed.

(** *** Shapes *)

Lemma pin_lengths (part : Part) (i : nat) (cells : list (list (Cell V)))
    (rows : list (list V)) (a : Added V) :
  pin mvar part i cells = Some (rows, a) ->
  map (@length V) rows = map (@length (Cell V)) cells.
Proof.
  revert i rows a. induction cells as [|row cells IH]; intros i rows a H;
    simpl in H.
  - inversion H; subst. reflexivity.
  - destruct (pin_row mvar part i 0 row) as [[vs b]|] eqn:Er; [|discriminate].
    destruct (pin mvar part (S i) cells) as [[rows' b']|] eqn:Ep;
      [|discriminate].
    inversion H; subst. simpl. f_equal.
    + destruct (pin_row_covers _ _ _ _ _ _ Er) as (_ & _ & L). exact L.
    + eapply IH. exact Ep.
Qed.

(** A bare regression takes its input as it is: every input row has the
    regression's features. *)
Lemma regression_widths (p : LinearRegression) (cells : list (list (Cell V)))
    (outs : option (list V)) (rows : list (list V)) (o : list V)
    (a : Added V) :
  regression mvar p cells outs = Some (rows, o, a) ->
  Forall (fun row => length row = length (coef_ p)) cells.
Proof.
  intros H. destruct (regression_ok _ _ _ _ _ _ H) as (_ & _ & W & _).
  unfold regression in H.
  destruct (pin mvar regression_input 0 cells) as [[rs b]|] eqn:E;
    [|discriminate].
  apply pin_lengths in E.
  destruct (forallb _ rs); [|discriminate].
  assert (rs = rows) by (destruct outs; [destruct (Nat.eqb _ _)|];
                         inversion H; reflexivity).
  subst rs. clear H.
  revert cells E. induction W as [|r rows Hr W IH]; intros [|c cells] E;
    simpl in E; try discriminate; constructor.
  - inversion E. congruence.
  - apply IH. inversion E. reflexivity.
Qed.

(** A successful translation has one regression row and one output per
    input row; the outputs are those supplied, or created; the rows
    [linreg] it adds are those of the regression, named by input row; and
    a bare regression adds no other row. *)
Lemma translation_shape (p : Predictor) (cells : list (list (Cell V)))
    (outs : option (list V)) (st st' : World V) (pc : PredictorConstr V) :
  gurobi_ml.add_predictor_constr V_eqb mvar p cells outs st = Some (pc, st')
  ->
  length (regression_rows pc) = length cells /\
  Forall (fun r => length r = length (coef_ (final_estimator p)))
         (regression_rows pc) /\
  length (output pc) = length cells /\
  match outs with
  | Some given => output pc = given
  | None =>
      output pc = map (fun i => mvar regression_output i 0)
                      (seq 0 (length cells)) /\
      incl (output pc) (added_vars pc)
  end /\
  filter (fun c => is_linreg (name c)) (added_constrs pc)
  = linreg_rows (final_estimator p) 0 (regression_rows pc) (output pc) /\
  map name (filter (fun c => is_linreg (name c)) (added_constrs pc))
  = map (fun i => linreg i 0) (seq 0 (length cells)) /\
  (forall r, p = Regression r ->
     added_constrs pc = linreg_rows r 0 (regression_rows pc) (output pc) /\
     length (added_constrs pc) = length cells /\
     Forall (fun row => length row = length (coef_ r)) cells).
Proof.
  unfold gurobi_ml.add_predictor_constr.
  destruct (translate mvar p cells outs) as [[[rows o] a]|] eqn:T;
    [|discriminate].
  destruct (fresh V_eqb (vars (m st)) (new_vars a)); [|discriminate].
  intros H. inversion H; subst. clear H.
  cbn [regression_rows output added_vars added_constrs].
  destruct (translate_ok _ _ _ _ _ _ T) as (L1 & L2 & _ & Fl & Ex & W & O).
  assert (L : length rows = length o) by lia.
  split; [exact L1|]. split; [exact W|]. split; [exact L2|].
  split; [exact O|]. split; [exact Fl|]. split.
  - rewrite Fl, (linreg_rows_names _ _ _ _ _ L), L1. reflexivity.
  - intros r Hp. split; [exact (Ex r Hp)|]. split.
    + rewrite (Ex r Hp), (linreg_rows_length _ _ _ _ _ L). exact L1.
    + subst p. simpl in T. eapply regression_widths. exact T.
Qed.

(** Supplied outputs that are not one per input row are refused. *)
Lemma translation_refuses (p : Predictor) (cells : list (list (Cell V)))
    (outs : list V) (st : World V) :
  length outs <> length cells ->
  gurobi_ml.add_predictor_constr V_eqb mvar p cells (Some outs) st = None.
Proof.
  intros N.
  destruct (gurobi_ml.add_predictor_constr V_eqb mvar p cells (Some outs) st)
    as [[pc st']|] eqn:E; [|reflexivity].
  destruct (translation_shape _ _ _ _ _ _ E) as (_ & _ & L & O & _).
  rewrite O in L. contradiction.
Qed.

(** Over a matrix of variables whose rows have the regression's features,
    the translation of a regression returns: with outputs supplied, one
    per row, it creates nothing; without, it creates them, if their names
    are new. *)
Lemma translation_returns_shape (r : LinearRegression)
    (rows : list (list V)) (outs : option (list V)) (st : World V) :
  Forall (fun row => length row = length (coef_ r)) rows ->
  match outs with
  | Some given => length given = length rows
  | None =>
      fresh V_eqb (vars (m st))
            (map (fun i => mvar regression_output i 0)
                 (seq 0 (length rows))) = true
  end ->
  exists pc st',
    gurobi_ml.add_predictor_constr V_eqb mvar (Regression r)
      (map (map (@Var V)) rows) outs st = Some (pc, st') /\
    regression_rows pc = rows /\
    added_vars pc = match outs with
                    | Some _ => []
                    | None => output pc
                    end /\
    added_bounds pc = map (@Free V) (added_vars pc) /\
    vars (m st') = vars (m st) ++ added_vars pc /\
    constrs (m st') = constrs (m st) ++ added_constrs pc.
Proof.
  intros W F.
  assert (Wb : forallb (fun x => Nat.eqb (length x) (length (coef_ r))) rows
               = true).
  { apply forallb_forall. intros x Hx. apply Nat.eqb_eq.
    rewrite Forall_forall in W. auto. }
  unfold gurobi_ml.add_predictor_constr, translate, regression.
  destruct (pin_vars V mvar regression_input 0 rows)
    as (a & -> & Hv & Hb & Hr).
  rewrite Wb. destruct outs as [given|].
  - apply Nat.eqb_eq in F. rewrite F.
    unfold plus. cbn [new_vars new_bounds new_rows].
    rewrite Hv, Hb, Hr. cbn [app fresh distinct forallb andb].
    do 2 eexists. split; [reflexivity|].
    cbn [regression_rows added_vars added_bounds added_constrs m vars
         constrs map].
    repeat split; reflexivity.
  - cbv zeta. unfold plus, free. cbn [new_vars new_bounds new_rows].
    rewrite Hv, Hb, Hr. cbn [app]. rewrite !app_nil_r. rewrite F.
    do 2 eexists. split; [reflexivity|].
    cbn [regression_rows output added_vars added_bounds added_constrs m
         vars constrs].
    repeat split; reflexivity.
Qed.

(** *** What the added rows say *)

(** At a feasible point of the translated model every output is the
    regression's prediction on its input row. *)
Lemma translation_forces_prediction (p : Predictor)
    (cells : list (list (Cell V))) (outs : option (list V))
    (st st' : World V) (pc : PredictorConstr V) (a : V -> Q) :
  gurobi_ml.add_predictor_constr V_eqb mvar p cells outs st = Some (pc, st')
  ->
  feasible V_eqb (m st') a ->
  forall row o, In (row, o) (combine (regression_rows pc) (output pc)) ->
    a o == predict (final_estimator p) (map a row).
Proof.
  intros E [Hc _] row o Hin.
  destruct (translation_shape _ _ _ _ _ _ E) as (_ & _ & _ & _ & Fl & _).
  destruct (In_linreg_rows V (final_estimator p) 0 _ _ _ _ Hin) as [k Hk].
  rewrite <- Fl in Hk. apply filter_In in Hk. destruct Hk as [Hk _].
  apply (holds_linreg_row (final_estimator p) k).
  rewrite Forall_forall in Hc. apply Hc.
  unfold gurobi_ml.add_predictor_constr in E.
  destruct (translate mvar p cells outs) as [[[rows o'] ad]|]; [|discriminate].
  destruct (fresh V_eqb (vars (m st)) (new_vars ad)); [|discriminate].
  inversion E; subst. cbn [m constrs added_constrs] in *.
  apply in_app_iff. right. exact Hk.
Qed.


End Translation_facts.

(** *** The call of the price optimization notebook *)


(** [add_predictor_constr(m, lin_reg, feats, d)] on the notebook's model,
    whatever the delivery bounds and the fitted numbers: the pipeline is
    translated, with 88 variables created (8 for the year the scaler
    reads, 16 for what it returns, 64 for the numbers the regression
    reads) and 24 rows added (16 of the scaler, 8 of the regression) to a
    model of 40 columns; the outputs are [d]. *)
Lemma pipeline_translation (min_delivery max_delivery : String.string -> Q)
    (mean_ scale_ : list Q) (p : LinearRegression) :
  length mean_ = 2%nat -> length scale_ = 2%nat ->
  length (coef_ p) = 10%nat ->
  exists pc st',
    gurobi_ml.add_predictor_constr price_optimization_model.var_eqb
      price_optimization_model.created
      (price_optimization_model.lin_reg mean_ scale_ p)
      price_optimization_model.feats (Some price_optimization_model.d)
      {| m := price_optimization_model.before min_delivery max_delivery;
         stdout := [] |}
    = Some (pc, st') /\
    counts pc = {| n_vars := 88; n_constrs := 24 |} /\
    length (vars (price_optimization_model.before min_delivery max_delivery))
    = 40%nat /\
    length (vars (m st')) = 128%nat /\
    output pc = price_optimization_model.d /\
    length (filter (fun c => is_linreg (name c)) (added_constrs pc)) = 8%nat.
Proof.
  intros Hm Hs Hp.
  destruct mean_ as [|m1 [|m2 [|]]]; try discriminate.
  destruct scale_ as [|s1 [|s2 [|]]]; try discriminate.
  destruct p as [coef b]. simpl in Hp.
  do 11 (destruct coef as [|? coef]; try discriminate).
  do 2 eexists. split; [vm_compute; reflexivity|].
  repeat split.
Qed.

(** *** The written model *)

(** The written model is what the general translation leaves of the model
    without its regression rows, whatever names it would give to created
    variables: it creates none. *)
Lemma written_model_translation
    (mvar : Part -> nat -> nat -> Avocado_Price_Allocation.var) :
  exists pc,
    gurobi_ml.add_predictor_constr Avocado_Price_Allocation.var_eqb mvar
      (Regression Avocado_Price_Allocation.lin_reg)
      (map (map (@Var Avocado_Price_Allocation.var))
           Avocado_Price_Allocation.feats)
      (Some Avocado_Price_Allocation.d) Avocado_Price_Allocation.start
    = Some (pc, Avocado_Price_Allocation.translated) /\
    regression_rows pc = Avocado_Price_Allocation.feats /\
    output pc = Avocado_Price_Allocation.d /\
    added_vars pc = [] /\
    added_constrs pc
    = filter (fun c => is_linreg (name c))
             Avocado_Price_Allocation.Subject_To.
Proof.
  eexists. split.
  - apply regression_on_variables_returns.
    exact Avocado_Props.translation_returns.
  - cbn [regression_rows output added_vars added_constrs].
    repeat split.
Qed.

(** C4. Shape inference.  Over an input matrix of variables with n rows,
    each with the regression's features, the translation returns, with
    the outputs supplied (n of them) or created (if their names are new):
    the output vector has length n and exactly n rows are added, named
    [linreg[0,0]] to [linreg[n-1,0]], row i on input row i and output i.
    Whatever the predictor and the input, a translation that returns has
    one output and one row [linreg[i,0]] per input row, and a bare
    regression adds no other row and takes rows of its feature count
    only; supplied outputs that are not one per input row are refused.
    In the written model the rows [linreg] are [linreg[0,0]] to
    [linreg[7,0]], row i on the ten [reg_features[i,j]] and [demand[i]],
    and they are what the translation adds. *)
Theorem translation_shapes :
  (forall (V : Type) (V_eqb : V -> V -> bool) (mvar : Part -> nat -> nat -> V)
          (r : LinearRegression) (rows : list (list V))
          (outs : option (list V)) (st : World V) (n : nat),
     length rows = n ->
     Forall (fun row => length row = length (coef_ r)) rows ->
     match outs with
     | Some given => length given = n
     | None =>
         fresh V_eqb (vars (m st))
               (map (fun i => mvar regression_output i 0%nat) (seq 0 n)) = true
     end ->
     exists pc st',
       gurobi_ml.add_predictor_constr V_eqb mvar (Regression r)
         (map (map (@Var V)) rows) outs st = Some (pc, st') /\
       output pc = match outs with
                   | Some given => given
                   | None => map (fun i => mvar regression_output i 0%nat)
                                 (seq 0 n)
                   end /\
       added_vars pc = match outs with
                       | Some _ => []
                       | None => output pc
                       end /\
       length (output pc) = n /\
       length (added_constrs pc) = n /\
       map name (added_constrs pc) = map (fun i => linreg i 0) (seq 0 n) /\
       added_constrs pc = linreg_rows r 0 rows (output pc) /\
       constrs (m st') = constrs (m st) ++ added_constrs pc) /\
  (forall (V : Type) (V_eqb : V -> V -> bool) (mvar : Part -> nat -> nat -> V)
          (p : Predictor) (cells : list (list (Cell V)))
          (outs : option (list V)) (st st' : World V)
          (pc : PredictorConstr V) (n : nat),
     length cells = n ->
     gurobi_ml.add_predictor_constr V_eqb mvar p cells outs st
     = Some (pc, st') ->
     length (output pc) = n /\
     match outs with
     | Some given => output pc = given
     | None =>
         output pc = map (fun i => mvar regression_output i 0%nat)
                         (seq 0 n) /\
         incl (output pc) (added_vars pc)
     end /\
     length (regression_rows pc) = n /\
     Forall (fun row => length row = length (coef_ (final_estimator p)))
            (regression_rows pc) /\
     filter (fun c => is_linreg (name c)) (added_constrs pc)
     = linreg_rows (final_estimator p) 0 (regression_rows pc) (output pc) /\
     map name (filter (fun c => is_linreg (name c)) (added_constrs pc))
     = map (fun i => linreg i 0) (seq 0 n) /\
     (forall r, p = Regression r ->
        length (added_constrs pc) = n /\
        map name (added_constrs pc) = map (fun i => linreg i 0) (seq 0 n) /\
        Forall (fun row => length row = length (coef_ r)) cells)) /\
  (forall (V : Type) (V_eqb : V -> V -> bool) (mvar : Part -> nat -> nat -> V)
          (p : Predictor) (cells : list (list (Cell V))) (outs : list V)
          (st : World V),
     length outs <> length cells ->
     gurobi_ml.add_predictor_constr V_eqb mvar p cells (Some outs) st = None)
  /\
  map (fun c => (name c, map snd (lhs c)))
      (filter (fun c => is_linreg (name c))
              Avocado_Price_Allocation.Subject_To)
  = map (fun i => (linreg i 0,
                   map (Avocado_Price_Allocation.reg_features i) (seq 0 10)
                   ++ [Avocado_Price_Allocation.demand i]))
        (seq 0 8) /\
  (forall mvar : Part -> nat -> nat -> Avocado_Price_Allocation.var,
   exists pc,
     gurobi_ml.add_predictor_constr Avocado_Price_Allocation.var_eqb mvar
       (Regression Avocado_Price_Allocation.lin_reg)
       (map (map (@Var Avocado_Price_Allocation.var))
            Avocado_Price_Allocation.feats)
       (Some Avocado_Price_Allocation.d) Avocado_Price_Allocation.start
     = Some (pc, Avocado_Price_Allocation.translated) /\
     output pc = Avocado_Price_Allocation.d /\
     added_vars pc = [] /\
     added_constrs pc
     = filter (fun c => is_linreg (name c))
              Avocado_Price_Allocation.Subject_To).
Proof.
  split; [|split; [|split; [|split]]].
  - intros V V_eqb mvar r rows outs st n Hn W F. subst n.
    destruct (translation_returns_shape V V_eqb mvar r rows outs st W F)
      as (pc & st' & E & Rr & Av & _ & _ & Cs).
    exists pc, st'. split; [exact E|].
    destruct (translation_shape V V_eqb mvar _ _ _ _ _ _ E)
      as (_ & _ & Lo & O & _ & _ & Ex).
    destruct (Ex r eq_refl) as (Ec & Lc & _).
    rewrite length_map in Lo, Lc.
    assert (L : length rows = length (output pc)) by lia.
    rewrite Rr in Ec.
    split.
    { destruct outs as [given|]; [exact O|].
      destruct O as [O _]. rewrite length_map in O. exact O. }
    split; [exact Av|]. split; [exact Lo|]. split; [exact Lc|].
    split; [|split; [exact Ec | exact Cs]].
    rewrite Ec. apply linreg_rows_names. exact L.
  - intros V V_eqb mvar p cells outs st st' pc n Hn E. subst n.
    destruct (translation_shape V V_eqb mvar _ _ _ _ _ _ E)
      as (Lr & W & Lo & O & Fl & Nm & Ex).
    split; [exact Lo|]. split; [exact O|]. split; [exact Lr|].
    split; [exact W|]. split; [exact Fl|]. split; [exact Nm|].
    intros r Hp. destruct (Ex r Hp) as (Ec & Lc & Wc).
    split; [exact Lc|]. split; [|exact Wc].
    rewrite Ec. rewrite <- Lr. apply linreg_rows_names. lia.
  - intros V V_eqb mvar p cells outs st N.
    apply translation_refuses. exact N.
  - vm_compute. reflexivity.
  - intros mvar.
    destruct (written_model_translation mvar) as (pc & E & _ & O & Av & Ac).
    exists pc. auto.
Qed.

(** *** The statements at the notebook's call *)


Lemma translation_shapes_witness :
  exists pc st',
    gurobi_ml.add_predictor_constr price_optimization_model.var_eqb
      price_optimization_model.created
      (price_optimization_model.lin_reg price_optimization_model.sample_mean
         price_optimization_model.sample_scale
         price_optimization_model.sample_regression)
      price_optimization_model.feats (Some price_optimization_model.d)
      price_optimization_model.sample_start
    = Some (pc, st') /\
    length price_optimization_model.feats = 8%nat /\
    length (output pc) = 8%nat /\
    output pc = price_optimization_model.d /\
    length (regression_rows pc) = 8%nat /\
    Forall (fun row => length row = 10%nat) (regression_rows pc) /\
    map name (filter (fun c => is_linreg (name c)) (added_constrs pc))
    = map (fun i => linreg i 0) (seq 0 8) /\
    length (added_constrs pc) = 24%nat /\
    exists pc1 st1,
      gurobi_ml.add_predictor_constr price_optimization_model.var_eqb
        price_optimization_model.created
        (Regression price_optimization_model.sample_price_regression)
        (map (map (@Var price_optimization_model.var))
             price_optimization_model.prices)
        None price_optimization_model.sample_start
      = Some (pc1, st1) /\
      output pc1
      = map (fun i => price_optimization_model.created regression_output i 0)
            (seq 0 8) /\
      added_vars pc1 = output pc1 /\
      length (added_constrs pc1) = 8%nat /\
      map name (added_constrs pc1) = map (fun i => linreg i 0) (seq 0 8).
Proof.
  destruct (pipeline_translation price_optimization_model.sample_min
              price_optimization_model.sample_max
              price_optimization_model.sample_mean
              price_optimization_model.sample_scale
              price_optimization_model.sample_regression
              eq_refl eq_refl eq_refl) as (pc & st' & E & Cn & _).
  exists pc, st'. split; [exact E|]. split; [reflexivity|].
  destruct (proj1 (proj2 translation_shapes) price_optimization_model.var
              price_optimization_model.var_eqb
              price_optimization_model.created _
              price_optimization_model.feats _ _ _ _ 8%nat
              eq_refl E) as (Lo & O & Lr & W & _ & Nm & _).
  split; [exact Lo|]. split; [exact O|]. split; [exact Lr|].
  split; [exact W|]. split; [exact Nm|].
  split; [exact (f_equal n_constrs Cn)|].
  assert (W1 : Forall (fun row : list price_optimization_model.var =>
                         length row = 1%nat)
                      price_optimization_model.prices)
    by (repeat constructor).
  destruct (proj1 translation_shapes price_optimization_model.var
              price_optimization_model.var_eqb
              price_optimization_model.created
              price_optimization_model.sample_price_regression
              price_optimization_model.prices None
              price_optimization_model.sample_start 8%nat eq_refl W1
              eq_refl)
    as (pc1 & st1 & E1 & O1 & Av1 & _ & Lc1 & Nm1 & _).
  exists pc1, st1. auto.
Defined.

End gurobi_ml_Props.
